(** * Authentication and authorization core of the NextAuth configuration

    A shallow embedding of [authOptions]: the two credential providers
    (['neon-auth'] and ['credentials']) and the [signIn] and [jwt]
    callbacks, over a model of the Prisma local store, the Neon remote
    service and the few JavaScript idioms the code relies on
    (truthiness, [?.], [??], [throw], [try]/[catch]/[finally]). *)

From Stdlib Require Import Ascii String.
From stdpp Require Import gmap strings pretty list fin_maps.

Local Open Scope string_scope.

(** ** JavaScript values *)

(** A value of type [T | null | undefined]. *)
Inductive JsOpt (A : Type) : Type :=
  | undefined
  | null
  | val (a : A).
Arguments undefined {A}.
Arguments null {A}.
Arguments val {A} a.

#[global] Instance JsOpt_eq_dec {A} `{EqDecision A} : EqDecision (JsOpt A).
Proof. solve_decision. Defined.

(** Truthiness of a string: only the empty string is falsy. *)
Definition truthy_string (s : string) : bool :=
  match s with
  | EmptyString => false
  | String _ _ => true
  end.

(** [x] used as a condition where [x : string | null | undefined]; the
    result is the string when the condition holds. *)
Definition truthy (x : JsOpt string) : option string :=
  match x with
  | val s => if truthy_string s then Some s else None
  | _ => None
  end.

(** [x || undefined] for a string-like [x]. *)
Definition or_undefined (x : JsOpt string) : option string := truthy x.

(** [hay.includes(needle)]. *)
Fixpoint includes (needle hay : string) : bool :=
  if String.prefix needle hay then true
  else match hay with
       | EmptyString => false
       | String _ rest => includes needle rest
       end.

(** [s.toLowerCase()] on ASCII letters; the code never calls it, the
    definition is only used to state what case normalization would be. *)
Definition lower_ascii (c : ascii) : ascii :=
  let n := nat_of_ascii c in
  if (65 <=? n)%nat && (n <=? 90)%nat then ascii_of_nat (n + 32) else c.

Fixpoint toLowerCase (s : string) : string :=
  match s with
  | EmptyString => EmptyString
  | String c rest => String (lower_ascii c) (toLowerCase rest)
  end.

(** ** Data model *)

Inductive Role : Type := ADMIN | USER.

#[global] Instance Role_eq_dec : EqDecision Role.
Proof. solve_decision. Defined.

Definition role_name (r : Role) : string :=
  match r with ADMIN => "ADMIN" | USER => "USER" end.

(** A row of [prisma.user]; the columns the code reads or writes. *)
Record User : Type := mkUser {
  user_id : string;
  user_email : string;
  user_name : option string;
  user_image : option string;
  user_role : Role;
  user_password : option string
}.

(** A row of [prisma.adminWhitelist]. *)
Record AdminWhitelist : Type := mkAdminWhitelist {
  wl_email : string;
  isActive : bool;
  canManageUsers : bool;
  canManageContent : bool;
  canManageSettings : bool
}.

(** What [neonAuth.authenticateUser] and [neonAuth.createUser] return. *)
Record NeonUser : Type := mkNeonUser {
  neon_id : string;
  neon_email : string;
  neon_name : option string;
  neon_role : Role;
  databaseRole : string;
  permissions : list string
}.

(** The [credentials] argument of [authorize]: a string record, so a
    field is a string or missing. *)
Record Credentials : Type := mkCredentials {
  cred_email : option string;
  cred_password : option string
}.

(** The [user] object NextAuth passes around; [authorize] of the
    ['neon-auth'] provider adds [neonRole] and [permissions]. *)
Record AuthUser : Type := mkAuthUser {
  au_id : string;
  au_email : JsOpt string;
  au_name : JsOpt string;
  au_image : JsOpt string;
  au_neonRole : option string;
  au_permissions : option (list string)
}.

Record Account : Type := mkAccount { provider : string }.

(** The JWT claims the [jwt] callback reads and writes. *)
Record JWT : Type := mkJWT {
  tok_id : option string;
  tok_email : JsOpt string;
  tok_isAdmin : option bool;
  tok_canManageUsers : option bool;
  tok_canManageContent : option bool;
  tok_canManageSettings : option bool
}.

(** ** Effects *)

(** Everything the code does to the outside, in the order it happens. *)
Inductive Event : Type :=
  | EvUserFindUnique (key : string)
  | EvWhitelistFindUnique (key : string)
  | EvUserUpsert (key : string) (name image : JsOpt string) (role : Role)
  | EvImportBcrypt
  | EvBcryptCompare
  | EvGetNeonAuthService
  | EvAuthenticateUser (email : string) (password : option string)
  | EvCreateUser (email : string) (name : option string) (role : Role)
  | EvDisconnect
  | EvConsoleError (label err : string)
  | EvConsoleLog (msg : string).

#[global] Instance Event_eq_dec : EqDecision Event.
Proof. solve_decision. Defined.

(** The result of running a piece of code: a value, or a thrown
    [Error] carrying its message. *)
Inductive Outcome (A : Type) : Type :=
  | Return (a : A)
  | Throw (message : string).
Arguments Return {A} a.
Arguments Throw {A} message.

(** The local store (two Prisma tables keyed by their unique [email]
    column), the counter behind generated ids, and the event log. *)
Record World : Type := mkWorld {
  users : gmap string User;
  adminWhitelist : gmap string AdminWhitelist;
  idSeed : nat;
  log : list Event
}.

Definition M (A : Type) : Type := World -> Outcome A * World.

Definition ret {A} (a : A) : M A := fun w => (Return a, w).

Definition throw {A} (message : string) : M A := fun w => (Throw message, w).

Definition bind {A B} (m : M A) (k : A -> M B) : M B :=
  fun w =>
    match m w with
    | (Return a, w') => k a w'
    | (Throw e, w') => (Throw e, w')
    end.

Notation "'let*' x ':=' m 'in' k" := (bind m (fun x => k))
  (at level 10, x name, m at level 100, k at level 200).
Notation "m ';;' k" := (bind m (fun _ => k))
  (at level 100, k at level 200, right associativity).

(** [try { m } catch (error) { h error }]. *)
Definition try_catch {A} (m : M A) (h : string -> M A) : M A :=
  fun w =>
    match m w with
    | (Return a, w') => (Return a, w')
    | (Throw e, w') => h e w'
    end.

(** [try { m } finally { f }]: [f] always runs; when it throws, its
    error replaces the outcome of [m]. *)
Definition try_finally {A} (m : M A) (f : M unit) : M A :=
  fun w =>
    let '(r, w') := m w in
    match f w' with
    | (Return _, w'') => (r, w'')
    | (Throw e, w'') => (Throw e, w'')
    end.

Definition emit (ev : Event) : M unit :=
  fun w => (Return tt,
            mkWorld (users w) (adminWhitelist w) (idSeed w) (log w ++ [ev])).

(** An external call whose answer does not depend on the local store. *)
Definition external {A} (ev : Event) (answer : Outcome A) : M A :=
  emit ev ;; (fun w => (answer, w)).

(** ** Collaborators *)

(** The handle [getNeonAuthService()] returns.  The module
    [@/lib/neon-auth] is not part of this development: each method is
    an arbitrary answer to the call, a value or a thrown error. *)
Record NeonAuthService : Type := mkNeonAuthService {
  authenticateUser : string -> option string -> Outcome (option NeonUser);
  createUser : string -> option string -> Role -> Outcome NeonUser;
  disconnect : Outcome unit
}.

(** What the surroundings decide: whether a Prisma call fails (and with
    which message), whether [import('bcryptjs')] resolves, what
    [bcrypt.compare] answers, the ids the database generates, and the
    remote service. *)
Record Env : Type := mkEnv {
  userFindFault : option string;
  whitelistFindFault : option string;
  userUpsertFault : option string;
  bcryptImportFault : option string;
  bcryptCompare : string -> string -> bool;
  cuid : nat -> string;
  getNeonAuthService : Outcome NeonAuthService
}.

(** The error messages of the code, under the names of the error
    taxonomy. *)
Definition MissingCredentials : string := "Email and password are required".
Definition InvalidCredentials : string := "Invalid credentials".
Definition NotAuthorized_role : string := "Admin access required".
Definition NotAuthorized_whitelist : string := "Admin access not authorized".

(** [update: { f: x }] on a nullable column: [undefined] leaves the
    column alone, [null] clears it. *)
Definition apply_update (x : JsOpt string) (old : option string) : option string :=
  match x with
  | undefined => old
  | null => None
  | val s => Some s
  end.

(** [create: { f: x }] on a nullable column. *)
Definition apply_create (x : JsOpt string) : option string :=
  match x with
  | val s => Some s
  | _ => None
  end.

(** The row [prisma.user.upsert] leaves under [email]. *)
Definition upsert_row (mk_id : nat -> string) (seed : nat) (old : option User)
    (email : string) (name image : JsOpt string) (role : Role) : User :=
  match old with
  | Some u =>
      mkUser (user_id u) (user_email u)
             (apply_update name (user_name u))
             (apply_update image (user_image u))
             role (user_password u)
  | None =>
      mkUser (mk_id seed) email (apply_create name) (apply_create image)
             role None
  end.

Section Core.

Variable env : Env.

Definition fallible {A} (ev : Event) (fault : option string) (m : M A) : M A :=
  emit ev ;;
  match fault with
  | Some message => throw message
  | None => m
  end.

(** [prisma.user.findUnique({ where: { email } })]. *)
Definition user_findUnique (email : string) : M (option User) :=
  fallible (EvUserFindUnique email) (userFindFault env)
    (fun w => (Return (users w !! email), w)).

(** [prisma.adminWhitelist.findUnique({ where: { email } })]. *)
Definition adminWhitelist_findUnique (email : string) : M (option AdminWhitelist) :=
  fallible (EvWhitelistFindUnique email) (whitelistFindFault env)
    (fun w => (Return (adminWhitelist w !! email), w)).

(** [prisma.user.upsert({ where: { email }, update: { name, image,
    role }, create: { email, name, image, role } })]: one atomic
    insert-or-update on the unique [email]. *)
Definition user_upsert (email : string) (name image : JsOpt string) (role : Role)
    : M User :=
  fallible (EvUserUpsert email name image role) (userUpsertFault env)
    (fun w =>
       let old := users w !! email in
       let row := upsert_row (cuid env) (idSeed w) old email name image role in
       (Return row,
        mkWorld (<[email := row]> (users w)) (adminWhitelist w)
                (match old with Some _ => idSeed w | None => S (idSeed w) end)
                (log w))).

Definition import_bcrypt : M unit :=
  fallible EvImportBcrypt (bcryptImportFault env) (ret tt).

Definition bcrypt_compare (password hash : string) : M bool :=
  emit EvBcryptCompare ;; ret (bcryptCompare env password hash).

Definition get_neon_auth_service : M NeonAuthService :=
  external EvGetNeonAuthService (getNeonAuthService env).

Definition neon_authenticateUser (neonAuth : NeonAuthService)
    (email : string) (password : option string) : M (option NeonUser) :=
  external (EvAuthenticateUser email password)
           (authenticateUser neonAuth email password).

Definition neon_createUser (neonAuth : NeonAuthService)
    (email : string) (name : option string) (role : Role) : M NeonUser :=
  external (EvCreateUser email name role) (createUser neonAuth email name role).

Definition neon_disconnect (neonAuth : NeonAuthService) : M unit :=
  external EvDisconnect (disconnect neonAuth).

Definition console_error (label err : string) : M unit :=
  emit (EvConsoleError label err).

Definition console_log (msg : string) : M unit := emit (EvConsoleLog msg).

(** [!credentials?.email || !credentials?.password] is false: both
    strings, when they are there and not empty. *)
Definition present_credentials (credentials : option Credentials)
    : option (string * string) :=
  match credentials with
  | Some c =>
      match cred_email c, cred_password c with
      | Some e, Some p =>
          if truthy_string e && truthy_string p then Some (e, p) else None
      | _, _ => None
      end
  | None => None
  end.

(** A nullable column read back as a JavaScript value. *)
Definition of_column (x : option string) : JsOpt string :=
  match x with
  | Some s => val s
  | None => null
  end.

(** [adminEntry?.f ?? false]. *)
Definition flag_or_false (adminEntry : option AdminWhitelist)
    (f : AdminWhitelist -> bool) : bool :=
  match adminEntry with
  | Some entry => f entry
  | None => false
  end.

(** *** [CredentialsProvider({ id: 'neon-auth', ... }).authorize] *)
Definition authorize_neon (credentials : option Credentials) : M AuthUser :=
  match present_credentials credentials with
  | None => throw MissingCredentials
  | Some (email, password) =>
      let* neonAuth := get_neon_auth_service in
      try_finally
        (try_catch
           (let* neonUser :=
              neon_authenticateUser neonAuth email (Some password) in
            match neonUser with
            | None => throw InvalidCredentials
            | Some nu =>
                if decide (neon_role nu = ADMIN) then
                  ret (mkAuthUser (neon_id nu) (val (neon_email nu))
                                  (of_column (neon_name nu)) null
                                  (Some (databaseRole nu))
                                  (Some (permissions nu)))
                else throw NotAuthorized_role
            end)
           (fun error =>
              console_error "Neon auth error:" error ;; throw error))
        (neon_disconnect neonAuth)
  end.

(** *** [CredentialsProvider({ name: 'credentials', ... }).authorize] *)
Definition authorize_credentials (credentials : option Credentials) : M AuthUser :=
  match present_credentials credentials with
  | None => throw MissingCredentials
  | Some (email, password) =>
      try_catch
        (import_bcrypt ;;
         let* user := user_findUnique email in
         match user with
         | None => throw InvalidCredentials
         | Some u =>
             match user_password u with
             | None => throw InvalidCredentials
             | Some hash =>
                 if truthy_string hash then
                   let* passwordMatch := bcrypt_compare password hash in
                   if passwordMatch : bool then
                     if decide (user_role u = ADMIN) then
                       let* adminEntry := adminWhitelist_findUnique email in
                       if flag_or_false adminEntry isActive then
                         ret (mkAuthUser (user_id u) (val (user_email u))
                                         (of_column (user_name u))
                                         (of_column (user_image u))
                                         None None)
                       else throw NotAuthorized_whitelist
                     else throw NotAuthorized_role
                   else throw InvalidCredentials
                 else throw InvalidCredentials
             end
         end)
        (fun error =>
           if includes "Cannot resolve module" error then
             throw "Password authentication not available. Please install dependencies."
           else throw error)
  end.

(** [account?.provider === 'google']. *)
Definition is_google (account : option Account) : bool :=
  match account with
  | Some a => bool_decide (provider a = "google")
  | None => false
  end.

(** *** [callbacks.signIn] *)
Definition signIn (user : AuthUser) (account : option Account) : M bool :=
  match (if is_google account then truthy (au_email user) else None) with
  | Some email =>
      let* adminEntry := adminWhitelist_findUnique email in
      let isAdmin := flag_or_false adminEntry isActive in
      let userRole := if isAdmin then ADMIN else USER in
      user_upsert email (au_name user) (au_image user) userRole ;;
      try_catch
        (let* neonAuth := get_neon_auth_service in
         let* existingNeonUser := neon_authenticateUser neonAuth email None in
         match existingNeonUser with
         | None =>
             neon_createUser neonAuth email (or_undefined (au_name user))
                             userRole ;;
             console_log ("Created Neon user for " +:+ email +:+
                          " with role: " +:+ role_name userRole)
         | Some _ => ret tt
         end ;;
         neon_disconnect neonAuth)
        (fun error =>
           console_error "Error creating Neon user for Google account:" error) ;;
      ret true
  | None => ret true
  end.

(** *** [callbacks.jwt] *)
Definition jwt (token : JWT) (user : option AuthUser) : M JWT :=
  let token :=
    match user with
    | Some u =>
        mkJWT (Some (au_id u)) (tok_email token) (tok_isAdmin token)
              (tok_canManageUsers token) (tok_canManageContent token)
              (tok_canManageSettings token)
    | None => token
    end in
  match truthy (tok_email token) with
  | Some email =>
      let* userData := user_findUnique email in
      let* adminEntry := adminWhitelist_findUnique email in
      let hasAdminRole :=
        match userData with
        | Some u => bool_decide (user_role u = ADMIN)
        | None => false
        end in
      let isInActiveWhitelist := flag_or_false adminEntry isActive in
      let isAdmin := hasAdminRole && isInActiveWhitelist in
      ret (mkJWT (tok_id token) (tok_email token) (Some isAdmin)
                 (Some (if isAdmin then flag_or_false adminEntry canManageUsers
                        else false))
                 (Some (if isAdmin then flag_or_false adminEntry canManageContent
                        else false))
                 (Some (if isAdmin then flag_or_false adminEntry canManageSettings
                        else false)))
  | None => ret token
  end.

End Core.

(** ** Vocabulary of the properties *)

(** A world before anything has been logged. *)
Definition start (us : gmap string User) (wl : gmap string AdminWhitelist)
    (seed : nat) : World :=
  mkWorld us wl seed [].

(** The join key an event hands to a store, local or remote. *)
Definition store_key (ev : Event) : option string :=
  match ev with
  | EvUserFindUnique k => Some k
  | EvWhitelistFindUnique k => Some k
  | EvUserUpsert k _ _ _ => Some k
  | EvAuthenticateUser k _ => Some k
  | EvCreateUser k _ _ => Some k
  | _ => None
  end.

Definition store_keys (l : list Event) : list string := omap store_key l.

(** An operation, seen as the events it produces for an email, would
    normalize case if all its keys were one function of the email that
    does not tell apart emails differing in letter case only. *)
Definition case_normalized_keys (op : string -> list Event) : Prop :=
  exists norm : string -> string,
    (forall e1 e2, toLowerCase e1 = toLowerCase e2 -> norm e1 = norm e2) /\
    (forall e, Forall (eq (norm e)) (store_keys (op e))).

(** An email or password that is not there, or empty. *)
Definition absent_or_empty (x : option string) : Prop :=
  x = None \/ x = Some "".

Definition missing_credentials (credentials : option Credentials) : Prop :=
  match credentials with
  | None => True
  | Some c => absent_or_empty (cred_email c) \/ absent_or_empty (cred_password c)
  end.

(** The role the federated sign-in gives the local record. *)
Definition target_role (w : World) (email : string) : Role :=
  if flag_or_false (adminWhitelist w !! email) isActive then ADMIN else USER.

(** The claims of a token carry the negative verdict. *)
Definition negative_verdict (token : JWT) : Prop :=
  tok_isAdmin token = Some false /\
  tok_canManageUsers token = Some false /\
  tok_canManageContent token = Some false /\
  tok_canManageSettings token = Some false.

(** The token [jwt] is handed on a refresh for [email]. *)
Definition token_for (email : string) : JWT :=
  mkJWT None (val email) None None None None.

(** ** Fixtures *)

Module Fixture.

Definition neon_down : NeonAuthService :=
  mkNeonAuthService (fun _ _ => Throw "ECONNREFUSED")
                    (fun _ _ _ => Throw "ECONNREFUSED")
                    (Throw "ECONNREFUSED").

Definition neon_empty : NeonAuthService :=
  mkNeonAuthService (fun _ _ => Return None)
                    (fun e n r => Return (mkNeonUser "n1" e n r "app_user" []))
                    (Return tt).

Definition neon_admin : NeonAuthService :=
  mkNeonAuthService
    (fun e _ => Return (Some (mkNeonUser "n7" e (Some "Ada") ADMIN
                                         "app_admin" ["users"; "content"])))
    (fun e n r => Return (mkNeonUser "n7" e n r "app_admin" []))
    (Return tt).

Definition plain_compare (password hash : string) : bool :=
  bool_decide (hash = "hash:" +:+ password).

Definition mk_id (n : nat) : string := "cuid" +:+ pretty n.

Definition healthy (svc : Outcome NeonAuthService) : Env :=
  mkEnv None None None None plain_compare mk_id svc.

(** The local store answers no read. *)
Definition local_down : Env :=
  mkEnv (Some "P1001: cannot reach database") None None None
        plain_compare mk_id (Return neon_empty).

Definition ada : User :=
  mkUser "u1" "a@x.com" (Some "Ada") None ADMIN (Some "hash:secret").

Definition bob : User :=
  mkUser "u2" "b@x.com" (Some "Bob") None USER (Some "hash:pw").

Definition ada_entry (active : bool) : AdminWhitelist :=
  mkAdminWhitelist "a@x.com" active true true true.

Definition two_users : gmap string User :=
  <["a@x.com" := ada]> (<["b@x.com" := bob]> ∅).

Definition whitelist (active : bool) : gmap string AdminWhitelist :=
  <["a@x.com" := ada_entry active]> ∅.

Definition google : option Account := Some (mkAccount "google").

Definition principal (email : JsOpt string) : AuthUser :=
  mkAuthUser "g-1" email (val "Ada L.") undefined None None.

Definition creds (email password : string) : option Credentials :=
  Some (mkCredentials (Some email) (Some password)).

End Fixture.

(** ** The session view *)

(** [session.user] as the [session] callback leaves it: the identity
    fields of the framework and the five fields the callback writes. *)
Record SessionUser : Type := mkSessionUser {
  su_name : JsOpt string;
  su_email : JsOpt string;
  su_image : JsOpt string;
  su_id : option string;
  su_isAdmin : option bool;
  su_canManageUsers : option bool;
  su_canManageContent : option bool;
  su_canManageSettings : option bool
}.

Record Session : Type := mkSession {
  session_user : option SessionUser;
  session_expires : string
}.

(** *** [callbacks.session]: it awaits nothing and touches no store. *)
Definition session (s : Session) (token : JWT) : Session :=
  match session_user s with
  | Some u =>
      mkSession
        (Some (mkSessionUser (su_name u) (su_email u) (su_image u)
                             (tok_id token) (tok_isAdmin token)
                             (tok_canManageUsers token)
                             (tok_canManageContent token)
                             (tok_canManageSettings token)))
        (session_expires s)
  | None => s
  end.

(** ** More vocabulary *)

(** Calls on the local store and calls on the remote service. *)
Definition local_store_event (ev : Event) : bool :=
  match ev with
  | EvUserFindUnique _ | EvWhitelistFindUnique _ | EvUserUpsert _ _ _ _ => true
  | _ => false
  end.

Definition local_read_event (ev : Event) : bool :=
  match ev with
  | EvUserFindUnique _ | EvWhitelistFindUnique _ => true
  | _ => false
  end.

Definition remote_store_event (ev : Event) : bool :=
  match ev with
  | EvGetNeonAuthService | EvAuthenticateUser _ _ | EvCreateUser _ _ _
  | EvDisconnect => true
  | _ => false
  end.

Definition is_create_event (ev : Event) : bool :=
  match ev with
  | EvCreateUser _ _ _ => true
  | _ => false
  end.

(** The world with another whitelist table: what an administrator
    editing the whitelist between two requests does. *)
Definition with_whitelist (w : World) (wl : gmap string AdminWhitelist) : World :=
  mkWorld (users w) wl (idSeed w) (log w).

Definition deactivate (entry : AdminWhitelist) : AdminWhitelist :=
  mkAdminWhitelist (wl_email entry) false (canManageUsers entry)
                   (canManageContent entry) (canManageSettings entry).

(** The token [jwt] works on once it has seeded the id. *)
Definition seed_id (token : JWT) (user : option AuthUser) : JWT :=
  match user with
  | Some u =>
      mkJWT (Some (au_id u)) (tok_email token) (tok_isAdmin token)
            (tok_canManageUsers token) (tok_canManageContent token)
            (tok_canManageSettings token)
  | None => token
  end.

(** ** Blob storage helpers ([src/lib/azure-storage.ts]) *)

(** [s.split(sep)] for a one-character separator: never empty, the
    empty string gives one empty piece. *)
Fixpoint js_split (sep : ascii) (s : string) : list string :=
  match s with
  | EmptyString => [EmptyString]
  | String c rest =>
      if Ascii.eqb c sep then EmptyString :: js_split sep rest
      else match js_split sep rest with
           | piece :: pieces => String c piece :: pieces
           | [] => [String c EmptyString]
           end
  end.

(** [parts.pop() || empty]: the last piece, the empty string when
    there is none or it is empty. *)
Definition pop_or_empty (parts : list string) : string :=
  default EmptyString (last parts).

(** [parts.join(sep)]. *)
Definition js_join (sep : string) (parts : list string) : string :=
  String.concat sep parts.

(** Does the character occur in the string. *)
Fixpoint has_char (c : ascii) (s : string) : bool :=
  match s with
  | EmptyString => false
  | String d rest => Ascii.eqb d c || has_char c rest
  end.

(** What reading a property of an object literal gives: a string of
    the literal itself, or something every object inherits from
    [Object.prototype]; [None] stands for [undefined]. *)
Inductive JsProperty : Type :=
  | OwnString (s : string)
  | Inherited (name : string).

Definition object_prototype_names : list string :=
  ["constructor"; "__defineGetter__"; "__defineSetter__"; "hasOwnProperty";
   "__lookupGetter__"; "__lookupSetter__"; "isPrototypeOf";
   "propertyIsEnumerable"; "toString"; "valueOf"; "__proto__";
   "toLocaleString"].

Fixpoint own_property (key : string) (obj : list (string * string))
    : option string :=
  match obj with
  | [] => None
  | (k, v) :: rest => if String.eqb k key then Some v else own_property key rest
  end.

(** [obj[key]]. *)
Definition get_property (key : string) (obj : list (string * string))
    : option JsProperty :=
  match own_property key obj with
  | Some v => Some (OwnString v)
  | None =>
      if bool_decide (key ∈ object_prototype_names) then Some (Inherited key)
      else None
  end.

Definition mimeTypes : list (string * string) :=
  [("jpg", "image/jpeg"); ("jpeg", "image/jpeg"); ("png", "image/png");
   ("gif", "image/gif"); ("webp", "image/webp"); ("svg", "image/svg+xml");
   ("ico", "image/x-icon");
   ("pdf", "application/pdf"); ("doc", "application/msword");
   ("docx", "application/vnd.openxmlformats-officedocument.wordprocessingml.document");
   ("xls", "application/vnd.ms-excel");
   ("xlsx", "application/vnd.openxmlformats-officedocument.spreadsheetml.sheet");
   ("ppt", "application/vnd.ms-powerpoint");
   ("pptx", "application/vnd.openxmlformats-officedocument.presentationml.presentation");
   ("txt", "text/plain"); ("csv", "text/csv"); ("json", "application/json");
   ("html", "text/html"); ("css", "text/css"); ("js", "text/javascript");
   ("zip", "application/zip"); ("rar", "application/x-rar-compressed");
   ("mp4", "video/mp4"); ("mp3", "audio/mpeg"); ("wav", "audio/wav")].

(** [getMimeType(filename)]; file names are taken to be ASCII, where
    [toLowerCase] only changes the letters A to Z. *)
Definition getMimeType (filename : string) : JsProperty :=
  let ext := pop_or_empty (js_split "." (toLowerCase filename)) in
  match get_property ext mimeTypes with
  | Some (OwnString v) =>
      if truthy_string v then OwnString v
      else OwnString "application/octet-stream"
  | Some (Inherited name) => Inherited name
  | None => OwnString "application/octet-stream"
  end.

(** [isImage(mimeType)]. *)
Definition isImage (mimeType : string) : bool := String.prefix "image/" mimeType.

(** [isPdf(mimeType)]. *)
Definition isPdf (mimeType : string) : bool :=
  String.eqb mimeType "application/pdf".

(** [extractBlobName(url)].  [new URL(url).pathname] is the platform's:
    [pathname_of url] is the path name, [None] when [new URL] throws. *)
Definition extractBlobName (pathname_of : string -> option string)
    (url : string) : option string :=
  match pathname_of url with
  | Some pathname =>
      let pathParts := js_split "/" pathname in
      let pathParts := tail pathParts in
      let pathParts := tail pathParts in
      Some (js_join "/" pathParts)
  | None => None
  end.

(** The options of an upload; a missing field is [None]. *)
Record UploadOptions : Type := mkUploadOptions {
  opt_folder : option string;
  opt_fileName : option string;
  opt_contentType : option string
}.

(** [x || fallback] for an optional string. *)
Definition or_else (x : option string) (fallback : string) : string :=
  match x with
  | Some s => if truthy_string s then s else fallback
  | None => fallback
  end.

(** The blob name [uploadFile] builds; [uuid] is what [uuidv4()]
    returns. *)
Definition upload_blob_name (uuid originalName : string)
    (options : UploadOptions) : string :=
  let ext := pop_or_empty (js_split "." originalName) in
  let baseName := or_else (opt_fileName options) uuid in
  let folder := or_else (opt_folder options) "uploads" in
  folder +:+ "/" +:+ baseName +:+ "." +:+ ext.

(** *** The storage client *)

(** What the surroundings of the storage module decide: the two
    environment variables, whether a call of the Azure SDK fails, the
    URL the SDK gives a blob, the UUID generated, the path name the
    platform reads off a URL, and the base64 decoder of [Buffer]. *)
Record AzureEnv : Type := mkAzureEnv {
  connectionStringVar : option string;
  containerNameVar : option string;
  fromConnectionStringFault : option string;
  createIfNotExistsFault : option string;
  uploadDataFault : option string;
  deleteIfExistsFault : option string;
  blobUrl : string -> string;
  uuidv4 : string;
  pathnameOf : string -> option string;
  bufferFromBase64 : string -> list Byte.byte
}.

(** Calls of the SDK that reach the storage account or build a
    client. *)
Inductive AzureEvent : Type :=
  | AzFromConnectionString (connectionString : string)
  | AzGetContainerClient (containerName : string)
  | AzCreateIfNotExists
  | AzUploadData (blobName : string) (buffer : list Byte.byte)
                 (blobContentType : JsProperty)
  | AzDeleteIfExists (blobName : string).

(** The two module variables (set or still [null]) and the log. *)
Record AzureState : Type := mkAzureState {
  blobServiceClient : bool;
  containerClient : bool;
  azure_log : list AzureEvent
}.

Definition Az (A : Type) : Type := AzureState -> Outcome A * AzureState.

Definition az_ret {A} (a : A) : Az A := fun st => (Return a, st).

Definition az_throw {A} (message : string) : Az A :=
  fun st => (Throw message, st).

Definition az_bind {A B} (m : Az A) (k : A -> Az B) : Az B :=
  fun st =>
    match m st with
    | (Return a, st') => k a st'
    | (Throw e, st') => (Throw e, st')
    end.

Notation "'let+' x ':=' m 'in' k" := (az_bind m (fun x => k))
  (at level 10, x name, m at level 100, k at level 200).
Notation "m ';+' k" := (az_bind m (fun _ => k))
  (at level 100, k at level 200, right associativity).

(** A call of the SDK that may throw. *)
Definition az_call (ev : AzureEvent) (fault : option string) : Az unit :=
  fun st =>
    let st' := mkAzureState (blobServiceClient st) (containerClient st)
                            (azure_log st ++ [ev]) in
    match fault with
    | Some message => (Throw message, st')
    | None => (Return tt, st')
    end.

Definition set_blobServiceClient : Az unit :=
  fun st => (Return tt, mkAzureState true (containerClient st) (azure_log st)).

Definition set_containerClient : Az unit :=
  fun st => (Return tt, mkAzureState (blobServiceClient st) true (azure_log st)).

Record UploadResult : Type := mkUploadResult {
  result_url : string;
  result_blobName : string
}.

(** [x || fallback] where the fallback is what [getMimeType] gave. *)
Definition content_type_or (x : option string) (fallback : JsProperty)
    : JsProperty :=
  match x with
  | Some s => if truthy_string s then OwnString s else fallback
  | None => fallback
  end.

(** Cut [rest] at its first semicolon: the part before it, and the
    part from it on. *)
Fixpoint until_semicolon (rest : string) : string * string :=
  match rest with
  | EmptyString => (EmptyString, EmptyString)
  | String c rest' =>
      if Ascii.eqb c ";" then (EmptyString, rest)
      else let '(run, after) := until_semicolon rest' in (String c run, after)
  end.

(** [s] without the prefix [p], when it starts with it. *)
Fixpoint strip_prefix (p s : string) : option string :=
  match p, s with
  | EmptyString, _ => Some s
  | String a p', String b s' => if Ascii.eqb a b then strip_prefix p' s' else None
  | String _ _, EmptyString => None
  end.

(** [base64Data.replace(/^data:[^;]+;base64,/, empty)]. *)
Definition strip_data_url (base64Data : string) : string :=
  match strip_prefix "data:" base64Data with
  | Some rest =>
      let '(run, after) := until_semicolon rest in
      match run, strip_prefix ";base64," after with
      | String _ _, Some payload => payload
      | _, _ => base64Data
      end
  | None => base64Data
  end.

Section Storage.

Variable env : AzureEnv.

(** [process.env.AZURE_STORAGE_CONTAINER_NAME || 'campuskit-files']. *)
Definition containerName : string :=
  or_else (containerNameVar env) "campuskit-files".

(** [getContainerClient()]: the clients are built on first use. *)
Definition getContainerClient : Az unit :=
  fun st =>
    if containerClient st then (Return tt, st)
    else
      match connectionStringVar env with
      | Some (String c cs) =>
          (az_call (AzFromConnectionString (String c cs))
                   (fromConnectionStringFault env) ;+
           set_blobServiceClient ;+
           az_call (AzGetContainerClient containerName) None ;+
           set_containerClient) st
      | _ => (Throw "AZURE_STORAGE_CONNECTION_STRING is not configured", st)
      end.

(** [ensureContainer()]. *)
Definition ensureContainer : Az unit :=
  getContainerClient ;+
  az_call AzCreateIfNotExists (createIfNotExistsFault env).

(** [uploadFile(buffer, originalName, options)]. *)
Definition uploadFile (buffer : list Byte.byte) (originalName : string)
    (options : UploadOptions) : Az UploadResult :=
  ensureContainer ;+
  getContainerClient ;+
  let blobName := upload_blob_name (uuidv4 env) originalName options in
  az_call (AzUploadData blobName buffer
             (content_type_or (opt_contentType options)
                              (getMimeType originalName)))
          (uploadDataFault env) ;+
  az_ret (mkUploadResult (blobUrl env blobName) blobName).

(** [uploadBase64(base64Data, originalName, options)]. *)
Definition uploadBase64 (base64Data originalName : string)
    (options : UploadOptions) : Az UploadResult :=
  let base64Clean := strip_data_url base64Data in
  let buffer := bufferFromBase64 env base64Clean in
  uploadFile buffer originalName options.

(** [deleteBlob(blobName)]. *)
Definition deleteBlob (blobName : string) : Az unit :=
  getContainerClient ;+
  az_call (AzDeleteIfExists blobName) (deleteIfExistsFault env).

(** [deleteByUrl(url)]. *)
Definition deleteByUrl (url : string) : Az unit :=
  match extractBlobName (pathnameOf env) url with
  | Some (String c rest) => deleteBlob (String c rest)
  | _ => az_ret tt
  end.

End Storage.

(** ** Tactics *)

(** Unfold the monad and the collaborators down to matches on their
    answers. *)
Ltac unfold_run :=
  unfold bind, try_catch, try_finally, ret, throw,
    user_findUnique, adminWhitelist_findUnique, user_upsert, import_bcrypt,
    bcrypt_compare, get_neon_auth_service, neon_authenticateUser,
    neon_createUser, neon_disconnect, console_error, console_log,
    external, fallible, emit, bind, ret, throw in *.

(** Membership of an event in a log that has been computed. *)
Ltac log_membership :=
  rewrite list_elem_of_In; cbn; intuition (discriminate || auto).

(** An equivalence between two facts about rows that have been looked
    up: open both sides and compare. *)
Ltac settle_iff :=
  split; intros;
  repeat match goal with
         | H : _ /\ _ |- _ => destruct H
         | H : exists _, _ |- _ => destruct H
         end;
  simplify_eq/=; try done;
  repeat (split || eexists); eauto.

(** The run has been computed up to the message test of a [catch]:
    what is left are facts about the tables and the events. *)
Ltac settle_frame :=
  try match goal with
      | |- context [includes ?needle ?e] => destruct (includes needle e)
      end;
  cbn; split_and!; try done; repeat constructor; done.

(** The event is not in the log that has been computed. *)
Ltac absent_from_log :=
  try match goal with
      | |- context [includes ?needle ?e] => destruct (includes needle e)
      end;
  cbn; rewrite list_elem_of_In; cbn; intuition discriminate.

(** Case analysis on every answer the run depends on. *)
Ltac run_cases := unfold_run; repeat (cbn in *; case_match); simplify_eq/=.

(** Walk through the table of an object literal, key by key. *)
Ltac walk_table key :=
  repeat match goal with
         | |- context [String.eqb ?k key] =>
             destruct (String.eqb_spec k key) as [<-|?]
         | H : context [String.eqb ?k key] |- _ =>
             destruct (String.eqb_spec k key) as [<-|?]
         end.

(** Unfold the storage operations down to the calls of the SDK. *)
Ltac unfold_storage :=
  unfold uploadBase64, uploadFile, deleteBlob, ensureContainer,
    getContainerClient, az_bind, az_call, az_ret, az_throw,
    set_blobServiceClient, set_containerClient in *.

(** ** Properties *)

(** *** Running a fallible store call *)

Lemma fallible_ok {A} ev (m : M A) w :
  fallible ev None m w =
  m (mkWorld (users w) (adminWhitelist w) (idSeed w) (log w ++ [ev])).
Proof. reflexivity. Qed.

Lemma fallible_fault {A} ev message (m : M A) w :
  fallible ev (Some message) m w =
  (Throw message,
   mkWorld (users w) (adminWhitelist w) (idSeed w) (log w ++ [ev])).
Proof. reflexivity. Qed.

(** The token [jwt] returns when both reads answer. *)
Lemma jwt_resolved env token user w email :
  truthy (tok_email token) = Some email ->
  userFindFault env = None ->
  whitelistFindFault env = None ->
  let userData := users w !! email in
  let adminEntry := adminWhitelist w !! email in
  let isAdmin :=
    match userData with
    | Some u => bool_decide (user_role u = ADMIN)
    | None => false
    end && flag_or_false adminEntry isActive in
  fst (jwt env token user w) =
  Return (mkJWT (match user with Some u => Some (au_id u) | None => tok_id token end)
                (tok_email token) (Some isAdmin)
                (Some (if isAdmin then flag_or_false adminEntry canManageUsers
                       else false))
                (Some (if isAdmin then flag_or_false adminEntry canManageContent
                       else false))
                (Some (if isAdmin then flag_or_false adminEntry canManageSettings
                       else false))).
Proof.
  intros Hemail Hu Hw. unfold jwt.
  assert (Hemail' :
    truthy (tok_email
      match user with
      | Some u => mkJWT (Some (au_id u)) (tok_email token) (tok_isAdmin token)
                        (tok_canManageUsers token) (tok_canManageContent token)
                        (tok_canManageSettings token)
      | None => token
      end) = Some email) by (destruct user; exact Hemail).
  rewrite Hemail'.
  unfold bind, user_findUnique, adminWhitelist_findUnique.
  rewrite Hu, Hw, !fallible_ok. cbn.
  destruct user; reflexivity.
Qed.

(** *** The verdict of a token refresh *)

(** C1: when a verdict is computed on a token refresh (the claims carry
    an email and both reads answer), [isAdmin] is true if and only if
    the local record for that email has role ADMIN and the whitelist
    entry for that email exists and is active; a missing local record
    or a missing whitelist entry gives [isAdmin = false]. *)
Theorem jwt_isAdmin_iff env token user w email :
  truthy (tok_email token) = Some email ->
  userFindFault env = None ->
  whitelistFindFault env = None ->
  exists token' b,
    fst (jwt env token user w) = Return token' /\
    tok_isAdmin token' = Some b /\
    (b = true <->
     (exists u, users w !! email = Some u /\ user_role u = ADMIN) /\
     (exists entry, adminWhitelist w !! email = Some entry /\
                    isActive entry = true)) /\
    (users w !! email = None -> b = false) /\
    (adminWhitelist w !! email = None -> b = false).
Proof.
  intros Hemail Hu Hw.
  pose proof (jwt_resolved env token user w email Hemail Hu Hw) as Hrun.
  cbv zeta in Hrun. eexists _, _. split; [exact Hrun|]. cbn.
  split; [reflexivity|].
  destruct (users w !! email) as [u|] eqn:Eu;
    destruct (adminWhitelist w !! email) as [entry|] eqn:Ee; cbn.
  - split_and!; try discriminate. split.
    + intros [Hrole Hact]%andb_true_iff.
      apply bool_decide_eq_true in Hrole.
      split; eexists; split; [reflexivity | assumption | reflexivity | assumption].
    + intros [(u' & Hu' & Hrole) (entry' & He' & Hact)].
      simplify_eq. apply andb_true_iff. split; [|assumption].
      by apply bool_decide_eq_true.
  - rewrite andb_false_r. split_and!; try done.
    split; [done|]. intros [_ (entry' & He' & _)]. discriminate.
  - split_and!; try done.
    split; [done|]. intros [(u' & Hu' & _) _]. discriminate.
  - split_and!; try done.
    split; [done|]. intros [(u' & Hu' & _) _]. discriminate.
Qed.

Lemma jwt_isAdmin_iff_witness :
  let env := Fixture.healthy (Return Fixture.neon_empty) in
  let w := start Fixture.two_users (Fixture.whitelist true) 2 in
  truthy (tok_email (token_for "a@x.com")) = Some "a@x.com" /\
  userFindFault env = None /\
  whitelistFindFault env = None /\
  exists token' b,
    fst (jwt env (token_for "a@x.com") None w) = Return token' /\
    tok_isAdmin token' = Some b /\
    (b = true <->
     (exists u, users w !! "a@x.com" = Some u /\ user_role u = ADMIN) /\
     (exists entry, adminWhitelist w !! "a@x.com" = Some entry /\
                    isActive entry = true)) /\
    (users w !! "a@x.com" = None -> b = false) /\
    (adminWhitelist w !! "a@x.com" = None -> b = false).
Proof.
  repeat split; try reflexivity.
  apply (jwt_isAdmin_iff (Fixture.healthy (Return Fixture.neon_empty))
           (token_for "a@x.com") None
           (start Fixture.two_users (Fixture.whitelist true) 2) "a@x.com");
    reflexivity.
Defined.

(** C2: whenever the verdict computed on a token refresh has
    [isAdmin = false], the three granular permissions of the verdict
    are false, whatever the whitelist row stores for them. *)
Theorem jwt_not_admin_no_permissions env token user w email token' :
  truthy (tok_email token) = Some email ->
  fst (jwt env token user w) = Return token' ->
  tok_isAdmin token' = Some false ->
  tok_canManageUsers token' = Some false /\
  tok_canManageContent token' = Some false /\
  tok_canManageSettings token' = Some false.
Proof.
  intros Hemail Hrun Hadmin.
  destruct (userFindFault env) as [m|] eqn:Hu.
  { exfalso. revert Hrun. unfold jwt.
    replace (truthy (tok_email _)) with (Some email)
      by (destruct user; symmetry; exact Hemail).
    unfold bind, user_findUnique. rewrite Hu, fallible_fault. discriminate. }
  destruct (whitelistFindFault env) as [m|] eqn:Hw.
  { exfalso. revert Hrun. unfold jwt.
    replace (truthy (tok_email _)) with (Some email)
      by (destruct user; symmetry; exact Hemail).
    unfold bind, user_findUnique, adminWhitelist_findUnique.
    rewrite Hu, Hw, fallible_ok, fallible_fault. discriminate. }
  pose proof (jwt_resolved env token user w email Hemail Hu Hw) as Hres.
  cbv zeta in Hres. rewrite Hres in Hrun. injection Hrun as <-.
  cbn in Hadmin |- *. injection Hadmin as ->. auto.
Qed.

Lemma jwt_not_admin_no_permissions_witness :
  let env := Fixture.healthy (Return Fixture.neon_empty) in
  let w := start Fixture.two_users (Fixture.whitelist false) 2 in
  let token' :=
    mkJWT None (val "a@x.com") (Some false) (Some false) (Some false)
          (Some false) in
  adminWhitelist w !! "a@x.com" =
    Some (mkAdminWhitelist "a@x.com" false true true true) /\
  truthy (tok_email (token_for "a@x.com")) = Some "a@x.com" /\
  fst (jwt env (token_for "a@x.com") None w) = Return token' /\
  tok_isAdmin token' = Some false /\
  tok_canManageUsers token' = Some false /\
  tok_canManageContent token' = Some false /\
  tok_canManageSettings token' = Some false.
Proof.
  split; [reflexivity|]. split; [reflexivity|].
  split; [vm_compute; reflexivity|]. split; [reflexivity|].
  apply (jwt_not_admin_no_permissions
           (Fixture.healthy (Return Fixture.neon_empty))
           (token_for "a@x.com") None
           (start Fixture.two_users (Fixture.whitelist false) 2) "a@x.com");
    [reflexivity | vm_compute; reflexivity | reflexivity].
Defined.

(** *** Read failures during a token refresh *)

(** [jwt] up to its first read, for a token that carries an email. *)
Lemma jwt_user_read_fails env token user w email message :
  truthy (tok_email token) = Some email ->
  userFindFault env = Some message ->
  fst (jwt env token user w) = Throw message.
Proof.
  intros Hemail Hu. unfold jwt.
  replace (truthy (tok_email _)) with (Some email)
    by (destruct user; symmetry; exact Hemail).
  unfold bind, user_findUnique. by rewrite Hu, fallible_fault.
Qed.

Lemma jwt_whitelist_read_fails env token user w email message :
  truthy (tok_email token) = Some email ->
  userFindFault env = None ->
  whitelistFindFault env = Some message ->
  fst (jwt env token user w) = Throw message.
Proof.
  intros Hemail Hu Hw. unfold jwt.
  replace (truthy (tok_email _)) with (Some email)
    by (destruct user; symmetry; exact Hemail).
  unfold bind, user_findUnique, adminWhitelist_findUnique.
  by rewrite Hu, Hw, fallible_ok, fallible_fault.
Qed.

(** C5, as the code has it: the resolution handles no error.  A failed
    read of the local record, or of the whitelist entry, is thrown to
    the caller of [jwt] with its message and no verdict is produced;
    when both reads answer, [jwt] returns, and a missing row is no
    error but gives the negative verdict. *)
Theorem jwt_read_failure_propagates env token user w email :
  truthy (tok_email token) = Some email ->
  let r := fst (jwt env token user w) in
  (forall message, userFindFault env = Some message -> r = Throw message) /\
  (forall message,
     userFindFault env = None -> whitelistFindFault env = Some message ->
     r = Throw message) /\
  (userFindFault env = None -> whitelistFindFault env = None ->
   exists token',
     r = Return token' /\
     (users w !! email = None \/ adminWhitelist w !! email = None ->
      negative_verdict token')).
Proof.
  intros Hemail r. subst r. split_and!.
  - intros message Hu. by apply (jwt_user_read_fails env token user w email).
  - intros message Hu Hw.
    by apply (jwt_whitelist_read_fails env token user w email).
  - intros Hu Hw.
    pose proof (jwt_resolved env token user w email Hemail Hu Hw) as Hres.
    cbv zeta in Hres. eexists. split; [exact Hres|].
    unfold negative_verdict. cbn.
    intros [-> | ->]; cbn; rewrite ?andb_false_r; done.
Qed.

Lemma jwt_read_failure_propagates_witness :
  let token := token_for "a@x.com" in
  let w := start Fixture.two_users (Fixture.whitelist true) 2 in
  truthy (tok_email token) = Some "a@x.com" /\
  (forall message,
     userFindFault Fixture.local_down = Some message ->
     fst (jwt Fixture.local_down token None w) = Throw message) /\
  (forall message,
     userFindFault Fixture.local_down = None ->
     whitelistFindFault Fixture.local_down = Some message ->
     fst (jwt Fixture.local_down token None w) = Throw message) /\
  (userFindFault Fixture.local_down = None ->
   whitelistFindFault Fixture.local_down = None ->
   exists token',
     fst (jwt Fixture.local_down token None w) = Return token' /\
     (users w !! "a@x.com" = None \/ adminWhitelist w !! "a@x.com" = None ->
      negative_verdict token')).
Proof.
  split; [reflexivity|].
  apply (jwt_read_failure_propagates Fixture.local_down (token_for "a@x.com")
           None (start Fixture.two_users (Fixture.whitelist true) 2) "a@x.com").
  reflexivity.
Defined.

(** The claim C5 as worded fails: with the local store unreachable, a
    refresh for an email throws instead of returning a negative
    verdict. *)
Lemma jwt_raises_on_read_failure :
  let r := fst (jwt Fixture.local_down (token_for "a@x.com") None
                    (start Fixture.two_users (Fixture.whitelist true) 2)) in
  r = Throw "P1001: cannot reach database" /\
  ~ (exists token', r = Return token' /\ negative_verdict token').
Proof.
  split; [reflexivity|]. intros (token' & Hrun & _).
  vm_compute in Hrun. discriminate.
Qed.

(** *** Federated sign-in *)

(** C10: a sign-in whose principal carries no email (none, [null] or
    the empty string) is accepted and does nothing else: the world is
    left as it was, so there is no whitelist lookup, no upsert and no
    call to the remote service; in particular for a Google account. *)
Theorem signIn_without_email_skips_sync env user account w :
  truthy (au_email user) = None ->
  signIn env user account w = (Return true, w).
Proof.
  intros Hemail. unfold signIn. rewrite Hemail.
  by destruct (is_google account).
Qed.

Lemma signIn_without_email_skips_sync_witness :
  let env := Fixture.healthy (Return Fixture.neon_empty) in
  let w := start Fixture.two_users (Fixture.whitelist true) 2 in
  is_google Fixture.google = true /\
  truthy (au_email (Fixture.principal undefined)) = None /\
  signIn env (Fixture.principal undefined) Fixture.google w = (Return true, w).
Proof.
  split; [reflexivity|]. split; [reflexivity|].
  apply (signIn_without_email_skips_sync
           (Fixture.healthy (Return Fixture.neon_empty))
           (Fixture.principal undefined) Fixture.google
           (start Fixture.two_users (Fixture.whitelist true) 2)).
  reflexivity.
Defined.

(** C3: in a federated sign-in that reaches the remote service (the
    whitelist lookup and the upsert answered), whatever the remote
    service does -- the handle cannot be had, the lookup fails, the
    create fails, the disconnect fails -- no error leaves [signIn]: it
    returns [true], and the local record has been upserted. *)
Theorem signIn_survives_remote_failure env user account w email :
  is_google account = true ->
  truthy (au_email user) = Some email ->
  whitelistFindFault env = None ->
  userUpsertFault env = None ->
  let r := signIn env user account w in
  let role := target_role w email in
  fst r = Return true /\
  users (snd r) =
    <[email := upsert_row (cuid env) (idSeed w) (users w !! email) email
                         (au_name user) (au_image user) role]> (users w) /\
  EvUserUpsert email (au_name user) (au_image user) role ∈ log (snd r).
Proof.
  intros Hg Hemail Hwl Hup. unfold signIn, target_role.
  rewrite Hg, Hemail. unfold_run. rewrite Hwl, Hup. cbn.
  repeat (case_match; cbn in *); simplify_eq/=;
    (split_and!; [reflexivity | reflexivity | set_solver]).
Qed.

Lemma signIn_survives_remote_failure_witness :
  let env := Fixture.healthy (Return Fixture.neon_down) in
  let user := Fixture.principal (val "new@x.com") in
  let w := start Fixture.two_users (Fixture.whitelist true) 2 in
  let r := signIn env user Fixture.google w in
  authenticateUser Fixture.neon_down "new@x.com" None = Throw "ECONNREFUSED" /\
  is_google Fixture.google = true /\
  truthy (au_email user) = Some "new@x.com" /\
  whitelistFindFault env = None /\
  userUpsertFault env = None /\
  fst r = Return true /\
  users (snd r) =
    <["new@x.com" :=
        upsert_row (cuid env) (idSeed w) (users w !! "new@x.com") "new@x.com"
                   (au_name user) (au_image user) (target_role w "new@x.com")]>
      (users w) /\
  EvUserUpsert "new@x.com" (au_name user) (au_image user)
               (target_role w "new@x.com") ∈ log (snd r).
Proof.
  do 5 (split; [reflexivity|]).
  apply (signIn_survives_remote_failure
           (Fixture.healthy (Return Fixture.neon_down))
           (Fixture.principal (val "new@x.com")) Fixture.google
           (start Fixture.two_users (Fixture.whitelist true) 2) "new@x.com");
    reflexivity.
Defined.

(** What a federated sign-in leaves in the local store, whatever the
    remote service answers. *)
Lemma signIn_local_effect env user account w email :
  is_google account = true ->
  truthy (au_email user) = Some email ->
  whitelistFindFault env = None ->
  userUpsertFault env = None ->
  let w' := snd (signIn env user account w) in
  users w' =
    <[email := upsert_row (cuid env) (idSeed w) (users w !! email) email
                         (au_name user) (au_image user) (target_role w email)]>
      (users w) /\
  idSeed w' =
    match users w !! email with Some _ => idSeed w | None => S (idSeed w) end /\
  adminWhitelist w' = adminWhitelist w.
Proof.
  intros Hg Hemail Hwl Hup. unfold signIn, target_role.
  rewrite Hg, Hemail. unfold_run. rewrite Hwl, Hup. cbn.
  repeat (case_match; cbn in *); simplify_eq/=; done.
Qed.

(** A sign-in that stops at a failing local call changes no table. *)
Lemma signIn_local_fault env user account w :
  is_Some (whitelistFindFault env) \/ is_Some (userUpsertFault env) ->
  let w' := snd (signIn env user account w) in
  users w' = users w /\ idSeed w' = idSeed w /\
  adminWhitelist w' = adminWhitelist w.
Proof.
  intros Hfault. unfold signIn.
  destruct (if is_google account then truthy (au_email user) else None);
    [|done].
  unfold_run.
  destruct (whitelistFindFault env) eqn:Hwl; cbn; [done|].
  destruct (userUpsertFault env) eqn:Hup; cbn; [done|].
  destruct Hfault as [[? ?]|[? ?]]; discriminate.
Qed.

(** Upserting the row an upsert with the same fields has left gives
    that row again. *)
Lemma upsert_row_again mk_id1 mk_id2 seed1 seed2 old email name image role :
  upsert_row mk_id2 seed2
    (Some (upsert_row mk_id1 seed1 old email name image role))
    email name image role =
  upsert_row mk_id1 seed1 old email name image role.
Proof.
  destruct old as [u|]; cbn; f_equal;
    try (by destruct name); by destruct image.
Qed.

(** C8: running the federated reconciliation a second time on the
    same principal, with the whitelist as it was and the local store
    failing or answering as in the first run, leaves the table of local
    records exactly as the first run left it: no row is added, no field
    of a row changes, no id is generated; the remote service may answer
    differently in the two runs. *)
Theorem signIn_idempotent env1 env2 user account w :
  whitelistFindFault env1 = whitelistFindFault env2 ->
  userUpsertFault env1 = userUpsertFault env2 ->
  let w1 := snd (signIn env1 user account w) in
  let w2 := snd (signIn env2 user account w1) in
  adminWhitelist w1 = adminWhitelist w /\
  users w2 = users w1 /\
  idSeed w2 = idSeed w1 /\
  size (users w2) = size (users w1).
Proof.
  intros Hwl Hup w1 w2.
  assert (adminWhitelist w1 = adminWhitelist w /\ users w2 = users w1 /\
          idSeed w2 = idSeed w1) as (Ha & Hu & Hs);
    [|by rewrite Hu].
  subst w1 w2.
  destruct (is_google account) eqn:Hg;
    [destruct (truthy (au_email user)) as [email|] eqn:Hemail|].
  - destruct (whitelistFindFault env1) as [m|] eqn:Hwl1.
    { destruct (signIn_local_fault env1 user account w) as (_ & _ & ?);
        [left; rewrite Hwl1; eauto|].
      destruct (signIn_local_fault env2 user account
                  (snd (signIn env1 user account w))) as (? & ? & _);
        [left; rewrite <- Hwl; eauto|]. done. }
    destruct (userUpsertFault env1) as [m|] eqn:Hup1.
    { destruct (signIn_local_fault env1 user account w) as (_ & _ & ?);
        [right; rewrite Hup1; eauto|].
      destruct (signIn_local_fault env2 user account
                  (snd (signIn env1 user account w))) as (? & ? & _);
        [right; rewrite <- Hup; eauto|]. done. }
    destruct (signIn_local_effect env1 user account w email)
      as (Hu1 & Hs1 & Ha1); [done..|].
    destruct (signIn_local_effect env2 user account
                (snd (signIn env1 user account w)) email)
      as (Hu2 & Hs2 & Ha2); [done | done | congruence | congruence |].
    split; [done|].
    assert (Hrole : target_role (snd (signIn env1 user account w)) email =
                    target_role w email)
      by (unfold target_role; by rewrite Ha1).
    rewrite Hu2, Hs2, Hrole, Hu1, lookup_insert_eq, upsert_row_again,
      insert_insert_eq.
    done.
  - unfold signIn. rewrite Hg, Hemail. done.
  - unfold signIn. rewrite Hg. done.
Qed.

Lemma signIn_idempotent_witness :
  let env1 := Fixture.healthy (Return Fixture.neon_empty) in
  let env2 := Fixture.healthy (Return Fixture.neon_admin) in
  let user := Fixture.principal (val "new@x.com") in
  let w := start Fixture.two_users (Fixture.whitelist true) 2 in
  let w1 := snd (signIn env1 user Fixture.google w) in
  let w2 := snd (signIn env2 user Fixture.google w1) in
  users w1 !! "new@x.com" =
    Some (mkUser "cuid2" "new@x.com" (Some "Ada L.") None USER None) /\
  whitelistFindFault env1 = whitelistFindFault env2 /\
  userUpsertFault env1 = userUpsertFault env2 /\
  adminWhitelist w1 = adminWhitelist w /\
  users w2 = users w1 /\
  idSeed w2 = idSeed w1 /\
  size (users w2) = size (users w1).
Proof.
  split; [vm_compute; reflexivity|].
  split; [reflexivity|]. split; [reflexivity|].
  apply (signIn_idempotent
           (Fixture.healthy (Return Fixture.neon_empty))
           (Fixture.healthy (Return Fixture.neon_admin))
           (Fixture.principal (val "new@x.com")) Fixture.google
           (start Fixture.two_users (Fixture.whitelist true) 2));
    reflexivity.
Defined.

(** *** Release of the remote handle *)

(** The ['neon-auth'] provider disconnects on every path once it holds
    the handle: [disconnect] is the last thing it does, whether the
    lookup answered, found nobody, or threw. *)
Lemma authorize_neon_releases env credentials w email password svc :
  present_credentials credentials = Some (email, password) ->
  getNeonAuthService env = Return svc ->
  exists events,
    log (snd (authorize_neon env credentials w)) =
    (log w ++ EvGetNeonAuthService :: events ++ [EvDisconnect])%list.
Proof.
  intros Hcred Hsvc. unfold authorize_neon. rewrite Hcred.
  unfold_run. rewrite Hsvc. cbn.
  destruct (authenticateUser svc email (Some password)) as [[nu|]|m]; cbn;
    [destruct (decide (neon_role nu = ADMIN)); cbn|..];
    destruct (disconnect svc); cbn;
    rewrite <- !app_assoc; cbn;
    first [ by exists [EvAuthenticateUser email (Some password)]
          | by eexists [EvAuthenticateUser email (Some password); _] ].
Qed.

(** [signIn] disconnects when the remote lookup and the create answer. *)
Lemma signIn_releases_on_normal_path env user account w email svc :
  is_google account = true ->
  truthy (au_email user) = Some email ->
  whitelistFindFault env = None ->
  userUpsertFault env = None ->
  getNeonAuthService env = Return svc ->
  (exists nu, authenticateUser svc email None = Return (Some nu)) \/
  (authenticateUser svc email None = Return None /\
   exists nu, createUser svc email (or_undefined (au_name user))
                         (target_role w email) = Return nu) ->
  EvDisconnect ∈ log (snd (signIn env user account w)).
Proof.
  intros Hg Hemail Hwl Hup Hsvc Hremote. unfold signIn.
  rewrite Hg, Hemail. unfold target_role in Hremote.
  unfold bind at 1 2. unfold adminWhitelist_findUnique, user_upsert.
  rewrite Hwl, Hup, !fallible_ok. cbn [users adminWhitelist idSeed log].
  unfold try_catch, bind, get_neon_auth_service, neon_authenticateUser,
    neon_createUser, neon_disconnect, console_log, console_error, external,
    emit, ret.
  rewrite Hsvc. cbn.
  destruct Hremote as [[nu Hauth]|[Hauth [nu Hcreate]]]; rewrite Hauth;
    [|rewrite Hcreate]; cbn; destruct (disconnect svc); cbn; set_solver.
Qed.

(** [signIn] does not disconnect when the remote lookup throws: the
    handle it holds is never released. *)
Lemma signIn_skips_disconnect_when_lookup_throws
    env user account us wl seed email svc message :
  is_google account = true ->
  truthy (au_email user) = Some email ->
  whitelistFindFault env = None ->
  userUpsertFault env = None ->
  getNeonAuthService env = Return svc ->
  authenticateUser svc email None = Throw message ->
  let r := signIn env user account (start us wl seed) in
  fst r = Return true /\
  EvGetNeonAuthService ∈ log (snd r) /\
  EvDisconnect ∉ log (snd r).
Proof.
  intros Hg Hemail Hwl Hup Hsvc Hauth. unfold signIn.
  rewrite Hg, Hemail. unfold_run. rewrite Hwl, Hup, Hsvc, Hauth. cbn.
  split_and!; [done | log_membership | log_membership].
Qed.

(** The same when the create throws. *)
Lemma signIn_skips_disconnect_when_create_throws
    env user account us wl seed email svc message :
  is_google account = true ->
  truthy (au_email user) = Some email ->
  whitelistFindFault env = None ->
  userUpsertFault env = None ->
  getNeonAuthService env = Return svc ->
  authenticateUser svc email None = Return None ->
  createUser svc email (or_undefined (au_name user))
             (target_role (start us wl seed) email) = Throw message ->
  let r := signIn env user account (start us wl seed) in
  fst r = Return true /\
  EvGetNeonAuthService ∈ log (snd r) /\
  EvDisconnect ∉ log (snd r).
Proof.
  intros Hg Hemail Hwl Hup Hsvc Hauth Hcreate. unfold signIn.
  rewrite Hg, Hemail. unfold target_role in Hcreate.
  unfold bind at 1 2. unfold adminWhitelist_findUnique, user_upsert.
  rewrite Hwl, Hup, !fallible_ok. cbn [users adminWhitelist idSeed log start].
  cbn [users adminWhitelist idSeed log start] in Hcreate.
  unfold try_catch, bind, get_neon_auth_service, neon_authenticateUser,
    neon_createUser, neon_disconnect, console_log, console_error, external,
    emit, ret.
  rewrite Hsvc. cbn. rewrite Hauth, Hcreate. cbn.
  split_and!; [done | log_membership | log_membership].
Qed.

(** C4, at a failing input: a Google sign-in for [a@x.com] while the
    remote lookup throws.  [signIn] obtains the handle, calls
    [authenticateUser], logs the error, returns [true] -- and never
    calls [disconnect], which the ['neon-auth'] provider does in its
    [finally]. *)
Theorem signIn_leaks_handle_on_remote_error :
  let env := Fixture.healthy (Return Fixture.neon_down) in
  let w := start Fixture.two_users (Fixture.whitelist true) 2 in
  let r := signIn env (Fixture.principal (val "a@x.com")) Fixture.google w in
  fst r = Return true /\
  log (snd r) =
    [EvWhitelistFindUnique "a@x.com";
     EvUserUpsert "a@x.com" (val "Ada L.") undefined ADMIN;
     EvGetNeonAuthService;
     EvAuthenticateUser "a@x.com" None;
     EvConsoleError "Error creating Neon user for Google account:"
                    "ECONNREFUSED"] /\
  (EvDisconnect ∉ log (snd r)) /\
  EvDisconnect ∈
    log (snd (authorize_neon env (Fixture.creds "a@x.com" "secret") w)).
Proof.
  cbv zeta. split_and!.
  - reflexivity.
  - vm_compute. reflexivity.
  - apply (signIn_skips_disconnect_when_lookup_throws
             (Fixture.healthy (Return Fixture.neon_down))
             (Fixture.principal (val "a@x.com")) Fixture.google
             Fixture.two_users (Fixture.whitelist true) 2 "a@x.com"
             Fixture.neon_down "ECONNREFUSED"); reflexivity.
  - destruct (authorize_neon_releases
                (Fixture.healthy (Return Fixture.neon_down))
                (Fixture.creds "a@x.com" "secret")
                (start Fixture.two_users (Fixture.whitelist true) 2)
                "a@x.com" "secret" Fixture.neon_down)
      as [events ->]; [reflexivity | reflexivity | set_solver].
Qed.

(** *** The credential providers *)

Lemma truthy_string_nonempty s : s <> "" -> truthy_string s = true.
Proof. by destruct s. Qed.

Lemma present_credentials_missing credentials :
  missing_credentials credentials -> present_credentials credentials = None.
Proof.
  destruct credentials as [[e p]|]; [|done]. cbn.
  intros [[-> | ->] | [-> | ->]]; cbn; repeat case_match; try done;
    match goal with
    | H : _ && _ = true |- _ => apply andb_true_iff in H as [? ?]; done
    end.
Qed.

Lemma present_credentials_given email password :
  email <> "" -> password <> "" ->
  present_credentials (Some (mkCredentials (Some email) (Some password))) =
  Some (email, password).
Proof.
  intros He Hp. cbn. by rewrite !truthy_string_nonempty.
Qed.

(** The local-credential provider lets nobody in who is not an
    ADMIN with an active whitelist entry, whatever else happens. *)
Lemma authorize_credentials_success env w email password identity :
  fst (authorize_credentials env
         (Some (mkCredentials (Some email) (Some password))) w) =
    Return identity ->
  exists u entry,
    users w !! email = Some u /\ user_role u = ADMIN /\
    adminWhitelist w !! email = Some entry /\ isActive entry = true.
Proof.
  unfold authorize_credentials.
  destruct (present_credentials _) as [[e p]|] eqn:Hcred; [|discriminate].
  cbn in Hcred. case_match; simplify_eq.
  unfold_run.
  destruct (bcryptImportFault env); cbn; [by case_match|].
  destruct (userFindFault env); cbn; [by case_match|].
  destruct (users w !! e) as [u|] eqn:Hu; cbn; [|discriminate].
  destruct (user_password u) as [hash|]; cbn; [|discriminate].
  destruct (truthy_string hash); cbn; [|discriminate].
  destruct (bcryptCompare env p hash); cbn; [|discriminate].
  destruct (decide (user_role u = ADMIN)) as [Hrole|]; cbn; [|discriminate].
  destruct (whitelistFindFault env); cbn; [by case_match|].
  destruct (adminWhitelist w !! e) as [entry|] eqn:He; cbn; [|discriminate].
  destruct (isActive entry) eqn:Hact; cbn; [|discriminate].
  intros _. by exists u, entry.
Qed.

(** C6: the local-credential provider.  Missing or empty email or
    password: rejected with MissingCredentials before anything is
    touched.  Otherwise, with the store and bcrypt available:
    InvalidCredentials when there is no local record, when it has no
    password hash, or when the password does not match; then
    NotAuthorized when the role is not ADMIN; then NotAuthorized when
    the whitelist has no entry for the email or an inactive one; and it
    succeeds, in any circumstances, only for an ADMIN with an active
    whitelist entry. *)
Theorem authorize_credentials_verdicts env credentials w :
  let r := authorize_credentials env credentials w in
  (missing_credentials credentials -> r = (Throw MissingCredentials, w)) /\
  (bcryptImportFault env = None ->
   userFindFault env = None ->
   whitelistFindFault env = None ->
   forall email password,
     credentials = Some (mkCredentials (Some email) (Some password)) ->
     email <> "" -> password <> "" ->
     (users w !! email = None -> fst r = Throw InvalidCredentials) /\
     (forall u,
        users w !! email = Some u -> absent_or_empty (user_password u) ->
        fst r = Throw InvalidCredentials) /\
     (forall u hash,
        users w !! email = Some u -> user_password u = Some hash ->
        bcryptCompare env password hash = false ->
        fst r = Throw InvalidCredentials) /\
     (forall u hash,
        users w !! email = Some u -> user_password u = Some hash ->
        hash <> "" -> bcryptCompare env password hash = true ->
        (user_role u <> ADMIN -> fst r = Throw NotAuthorized_role) /\
        (user_role u = ADMIN ->
         adminWhitelist w !! email = None ->
         fst r = Throw NotAuthorized_whitelist) /\
        (forall entry,
           user_role u = ADMIN ->
           adminWhitelist w !! email = Some entry ->
           isActive entry = false ->
           fst r = Throw NotAuthorized_whitelist) /\
        (forall entry,
           user_role u = ADMIN ->
           adminWhitelist w !! email = Some entry ->
           isActive entry = true ->
           fst r = Return (mkAuthUser (user_id u) (val (user_email u))
                                      (of_column (user_name u))
                                      (of_column (user_image u)) None None)))) /\
  (forall email password identity,
     credentials = Some (mkCredentials (Some email) (Some password)) ->
     fst r = Return identity ->
     exists u entry,
       users w !! email = Some u /\ user_role u = ADMIN /\
       adminWhitelist w !! email = Some entry /\ isActive entry = true).
Proof.
  cbv zeta. split_and!.
  { intros Hmiss. unfold authorize_credentials.
    by rewrite present_credentials_missing. }
  2: { intros email password identity ->.
       apply authorize_credentials_success. }
  intros Hb Hu Hwl email password -> He Hp. unfold authorize_credentials.
  rewrite present_credentials_given by done.
  unfold_run. rewrite Hb, Hu, Hwl. cbn.
  split_and!.
  - intros ->. reflexivity.
  - intros u -> [-> | ->]; reflexivity.
  - intros u hash -> -> Hcmp. destruct hash; [reflexivity|].
    cbn. rewrite Hcmp. reflexivity.
  - intros u hash -> -> Hhash Hcmp.
    rewrite (truthy_string_nonempty hash Hhash), Hcmp.
    split_and!.
    + intros Hrole. by destruct (decide (user_role u = ADMIN)).
    + intros Hrole Hentry.
      destruct (decide (user_role u = ADMIN)); [|done]. cbn.
      by rewrite Hentry.
    + intros entry Hrole Hentry Hact.
      destruct (decide (user_role u = ADMIN)); [|done]. cbn.
      rewrite Hentry. cbn. by rewrite Hact.
    + intros entry Hrole Hentry Hact.
      destruct (decide (user_role u = ADMIN)); [|done]. cbn.
      rewrite Hentry. cbn. by rewrite Hact.
Qed.

Lemma authorize_credentials_verdicts_witness :
  let env := Fixture.healthy (Return Fixture.neon_empty) in
  let w := start Fixture.two_users (Fixture.whitelist false) 2 in
  let run credentials := authorize_credentials env credentials w in
  missing_credentials (Fixture.creds "a@x.com" "") /\
  run (Fixture.creds "a@x.com" "") = (Throw MissingCredentials, w) /\
  fst (run (Fixture.creds "nobody@x.com" "pw")) = Throw InvalidCredentials /\
  fst (run (Fixture.creds "a@x.com" "guess")) = Throw InvalidCredentials /\
  fst (run (Fixture.creds "b@x.com" "pw")) = Throw NotAuthorized_role /\
  fst (run (Fixture.creds "a@x.com" "secret")) = Throw NotAuthorized_whitelist.
Proof.
  cbv zeta.
  pose (env := Fixture.healthy (Return Fixture.neon_empty)).
  pose (w := start Fixture.two_users (Fixture.whitelist false) 2).
  split_and!.
  - right; right; reflexivity.
  - apply (authorize_credentials_verdicts env (Fixture.creds "a@x.com" "") w).
    right; right; reflexivity.
  - destruct (authorize_credentials_verdicts env
                (Fixture.creds "nobody@x.com" "pw") w) as (_ & Hcases & _).
    destruct (Hcases eq_refl eq_refl eq_refl "nobody@x.com" "pw" eq_refl)
      as (Habsent & _); [discriminate | discriminate |].
    apply Habsent. reflexivity.
  - destruct (authorize_credentials_verdicts env
                (Fixture.creds "a@x.com" "guess") w) as (_ & Hcases & _).
    destruct (Hcases eq_refl eq_refl eq_refl "a@x.com" "guess" eq_refl)
      as (_ & _ & Hmismatch & _); [discriminate | discriminate |].
    apply (Hmismatch Fixture.ada "hash:secret"); reflexivity.
  - destruct (authorize_credentials_verdicts env
                (Fixture.creds "b@x.com" "pw") w) as (_ & Hcases & _).
    destruct (Hcases eq_refl eq_refl eq_refl "b@x.com" "pw" eq_refl)
      as (_ & _ & _ & Hmatch); [discriminate | discriminate |].
    destruct (Hmatch Fixture.bob "hash:pw") as (Hrole & _);
      [reflexivity | reflexivity | discriminate | reflexivity |].
    apply Hrole. discriminate.
  - destruct (authorize_credentials_verdicts env
                (Fixture.creds "a@x.com" "secret") w) as (_ & Hcases & _).
    destruct (Hcases eq_refl eq_refl eq_refl "a@x.com" "secret" eq_refl)
      as (_ & _ & _ & Hmatch); [discriminate | discriminate |].
    destruct (Hmatch Fixture.ada "hash:secret") as (_ & _ & Hinactive & _);
      [reflexivity | reflexivity | discriminate | reflexivity |].
    apply (Hinactive (Fixture.ada_entry false)); reflexivity.
Defined.


(** C7: the remote-credential provider.  Missing or empty email or
    password: rejected with MissingCredentials before anything is
    touched.  Otherwise, with the remote service reachable:
    InvalidCredentials when it finds no match, NotAuthorized when the
    record it returns has a role other than ADMIN, and for ADMIN the
    identity of that record is returned. *)
Theorem authorize_neon_verdicts env credentials w :
  let r := authorize_neon env credentials w in
  (missing_credentials credentials -> r = (Throw MissingCredentials, w)) /\
  (forall email password svc,
     credentials = Some (mkCredentials (Some email) (Some password)) ->
     email <> "" -> password <> "" ->
     getNeonAuthService env = Return svc ->
     disconnect svc = Return tt ->
     (authenticateUser svc email (Some password) = Return None ->
      fst r = Throw InvalidCredentials) /\
     (forall nu,
        authenticateUser svc email (Some password) = Return (Some nu) ->
        (neon_role nu <> ADMIN -> fst r = Throw NotAuthorized_role) /\
        (neon_role nu = ADMIN ->
         fst r = Return (mkAuthUser (neon_id nu) (val (neon_email nu))
                                    (of_column (neon_name nu)) null
                                    (Some (databaseRole nu))
                                    (Some (permissions nu)))))).
Proof.
  cbv zeta. split.
  { intros Hmiss. unfold authorize_neon.
    by rewrite present_credentials_missing. }
  intros email password svc -> He Hp Hsvc Hdis. unfold authorize_neon.
  rewrite present_credentials_given by done.
  unfold_run. rewrite Hsvc, Hdis. cbn. split.
  - intros ->. reflexivity.
  - intros nu ->. cbn. split; intros Hrole;
      destruct (decide (neon_role nu = ADMIN)); done.
Qed.

Lemma authorize_neon_verdicts_witness :
  let w := start Fixture.two_users (Fixture.whitelist true) 2 in
  let run svc credentials :=
    authorize_neon (Fixture.healthy (Return svc)) credentials w in
  missing_credentials (Some (mkCredentials None (Some "secret"))) /\
  run Fixture.neon_admin (Some (mkCredentials None (Some "secret"))) =
    (Throw MissingCredentials, w) /\
  fst (run Fixture.neon_empty (Fixture.creds "a@x.com" "secret")) =
    Throw InvalidCredentials /\
  fst (run Fixture.neon_admin (Fixture.creds "a@x.com" "secret")) =
    Return (mkAuthUser "n7" (val "a@x.com") (val "Ada") null
                       (Some "app_admin") (Some ["users"; "content"])).
Proof.
  cbv zeta.
  pose (w := start Fixture.two_users (Fixture.whitelist true) 2).
  split_and!.
  - left; left; reflexivity.
  - apply (authorize_neon_verdicts
             (Fixture.healthy (Return Fixture.neon_admin))
             (Some (mkCredentials None (Some "secret"))) w).
    left; left; reflexivity.
  - destruct (authorize_neon_verdicts
                (Fixture.healthy (Return Fixture.neon_empty))
                (Fixture.creds "a@x.com" "secret") w) as (_ & Hcases).
    destruct (Hcases "a@x.com" "secret" Fixture.neon_empty eq_refl)
      as (Hnone & _);
      [discriminate | discriminate | reflexivity | reflexivity |].
    apply Hnone. reflexivity.
  - destruct (authorize_neon_verdicts
                (Fixture.healthy (Return Fixture.neon_admin))
                (Fixture.creds "a@x.com" "secret") w) as (_ & Hcases).
    destruct (Hcases "a@x.com" "secret" Fixture.neon_admin eq_refl)
      as (_ & Hfound);
      [discriminate | discriminate | reflexivity | reflexivity |].
    destruct (Hfound (mkNeonUser "n7" "a@x.com" (Some "Ada") ADMIN
                                 "app_admin" ["users"; "content"]))
      as (_ & Hadmin); [reflexivity|].
    apply Hadmin. reflexivity.
Defined.

(** *** The join key *)

(** The claim C9 as worded fails: the keys [jwt] hands to the store
    are not a case-insensitive function of the email. *)
Lemma jwt_keys_not_case_normalized :
  toLowerCase "A@x.com" = toLowerCase "a@x.com" /\
  ~ case_normalized_keys
      (fun email =>
         log (snd (jwt (Fixture.healthy (Return Fixture.neon_empty))
                       (token_for email) None
                       (start Fixture.two_users (Fixture.whitelist true) 2)))).
Proof.
  split; [reflexivity|].
  intros (norm & Hcase & Hkeys).
  pose proof (Hkeys "A@x.com") as Hupper.
  pose proof (Hkeys "a@x.com") as Hlower.
  vm_compute in Hupper, Hlower.
  apply Forall_cons_1 in Hupper as [Hupper _].
  apply Forall_cons_1 in Hlower as [Hlower _].
  specialize (Hcase "A@x.com" "a@x.com" eq_refl).
  congruence.
Qed.

(** What the missing normalization costs: the administrator of the
    fixture, whose rows are under [a@x.com], is no administrator under
    [A@x.com]. *)
Lemma jwt_verdict_depends_on_case :
  let env := Fixture.healthy (Return Fixture.neon_empty) in
  let w := start Fixture.two_users (Fixture.whitelist true) 2 in
  fst (jwt env (token_for "a@x.com") None w) =
    Return (mkJWT None (val "a@x.com") (Some true) (Some true) (Some true)
                  (Some true)) /\
  fst (jwt env (token_for "A@x.com") None w) =
    Return (mkJWT None (val "A@x.com") (Some false) (Some false) (Some false)
                  (Some false)).
Proof. split; vm_compute; reflexivity. Qed.

(** C9, as the code has it: no operation changes the case of the
    email.  Both providers, the federated sign-in (whitelist lookup,
    upsert, remote lookup and create) and the token refresh use the
    email exactly as it was handed to them for every key they give to
    a store. *)
Theorem store_keys_are_verbatim env us wl seed email password
    id name image neonRole perms account tid isAdmin cu cc cs user :
  let w := start us wl seed in
  let credentials := Some (mkCredentials (Some email) (Some password)) in
  let principal := mkAuthUser id (val email) name image neonRole perms in
  let token := mkJWT tid (val email) isAdmin cu cc cs in
  Forall (eq email) (store_keys (log (snd (authorize_neon env credentials w)))) /\
  Forall (eq email)
         (store_keys (log (snd (authorize_credentials env credentials w)))) /\
  Forall (eq email) (store_keys (log (snd (signIn env principal account w)))) /\
  Forall (eq email) (store_keys (log (snd (jwt env token user w)))).
Proof.
  cbv zeta. split_and!.
  - unfold authorize_neon.
    destruct (present_credentials _) as [[e p]|] eqn:Hcred; [|constructor].
    cbn in Hcred. case_match; simplify_eq.
    run_cases; repeat constructor.
  - unfold authorize_credentials.
    destruct (present_credentials _) as [[e p]|] eqn:Hcred; [|constructor].
    cbn in Hcred. case_match; simplify_eq.
    run_cases; repeat constructor.
  - unfold signIn. destruct (is_google account); [|constructor].
    cbn. destruct (truthy_string email); [|constructor].
    run_cases; repeat constructor.
  - unfold jwt.
    destruct user; cbn; (destruct (truthy_string email); [|constructor]);
      run_cases; repeat constructor.
Qed.

(** ** Further properties of the callbacks and providers *)

(** *** Token refresh *)

Lemma jwt_no_email env token user w :
  truthy (tok_email token) = None ->
  jwt env token user w = (Return (seed_id token user), w).
Proof.
  intros Hemail. unfold jwt.
  replace (truthy (tok_email _)) with (@None string)
    by (destruct user; symmetry; exact Hemail).
  by destruct user.
Qed.

Lemma jwt_world env token user w email :
  truthy (tok_email token) = Some email ->
  userFindFault env = None ->
  whitelistFindFault env = None ->
  snd (jwt env token user w) =
  mkWorld (users w) (adminWhitelist w) (idSeed w)
          ((log w ++ [EvUserFindUnique email]) ++ [EvWhitelistFindUnique email]).
Proof.
  intros Hemail Hu Hw. unfold jwt.
  replace (truthy (tok_email _)) with (Some email)
    by (destruct user; symmetry; exact Hemail).
  unfold bind, user_findUnique, adminWhitelist_findUnique.
  by rewrite Hu, Hw, !fallible_ok.
Qed.

Lemma jwt_return_no_fault env token user w email token' :
  truthy (tok_email token) = Some email ->
  fst (jwt env token user w) = Return token' ->
  userFindFault env = None /\ whitelistFindFault env = None.
Proof.
  intros Hemail Hrun.
  destruct (userFindFault env) as [m|] eqn:Hu.
  { rewrite (jwt_user_read_fails env token user w email m) in Hrun by done.
    discriminate. }
  destruct (whitelistFindFault env) as [m|] eqn:Hw; [|done].
  rewrite (jwt_whitelist_read_fails env token user w email m) in Hrun by done.
  discriminate.
Qed.

Lemma jwt_tables env token user w :
  users (snd (jwt env token user w)) = users w /\
  adminWhitelist (snd (jwt env token user w)) = adminWhitelist w /\
  idSeed (snd (jwt env token user w)) = idSeed w.
Proof.
  destruct (truthy (tok_email token)) as [email|] eqn:Hemail.
  - unfold jwt.
    replace (truthy (tok_email _)) with (Some email)
      by (destruct user; symmetry; exact Hemail).
    unfold_run.
    destruct (userFindFault env); cbn; [done|].
    destruct (whitelistFindFault env); cbn; done.
  - by rewrite jwt_no_email.
Qed.

(** X1: what the session shows after a refresh.  The [session]
    callback applied to the token of a refresh reports [isAdmin] true
    exactly for an ADMIN with an active whitelist entry, reports each
    permission true exactly when in addition the whitelist row grants
    it, and leaves name, email, image and expiry of the session as
    they were. *)
Theorem session_after_refresh env token user w email s su :
  truthy (tok_email token) = Some email ->
  userFindFault env = None ->
  whitelistFindFault env = None ->
  session_user s = Some su ->
  exists token' su',
    fst (jwt env token user w) = Return token' /\
    session s token' = mkSession (Some su') (session_expires s) /\
    su_name su' = su_name su /\ su_email su' = su_email su /\
    su_image su' = su_image su /\ su_id su' = tok_id token' /\
    (su_isAdmin su' = Some true <->
     (exists u, users w !! email = Some u /\ user_role u = ADMIN) /\
     (exists entry, adminWhitelist w !! email = Some entry /\
                    isActive entry = true)) /\
    (su_canManageUsers su' = Some true <->
     su_isAdmin su' = Some true /\
     exists entry, adminWhitelist w !! email = Some entry /\
                   canManageUsers entry = true) /\
    (su_canManageContent su' = Some true <->
     su_isAdmin su' = Some true /\
     exists entry, adminWhitelist w !! email = Some entry /\
                   canManageContent entry = true) /\
    (su_canManageSettings su' = Some true <->
     su_isAdmin su' = Some true /\
     exists entry, adminWhitelist w !! email = Some entry /\
                   canManageSettings entry = true).
Proof.
  intros Hemail Hu Hw Hs.
  pose proof (jwt_resolved env token user w email Hemail Hu Hw) as Hrun.
  cbv zeta in Hrun. eexists _, _. split; [exact Hrun|].
  unfold session. rewrite Hs. cbn. split; [reflexivity|]. cbn.
  split_and!; try reflexivity.
  all: destruct (users w !! email) as [u|]; cbn;
    [destruct (decide (user_role u = ADMIN)) as [Hrole|Hrole];
     [rewrite (bool_decide_eq_true_2 _ Hrole)
     |rewrite (bool_decide_eq_false_2 _ Hrole)]|];
    (destruct (adminWhitelist w !! email) as [[key active cu cc cs]|]; cbn;
     [destruct active, cu, cc, cs; cbn|]);
    settle_iff.
Qed.

Lemma session_after_refresh_witness :
  let env := Fixture.healthy (Return Fixture.neon_empty) in
  let w := start Fixture.two_users (Fixture.whitelist true) 2 in
  let s := mkSession (Some (mkSessionUser (val "Ada") (val "a@x.com") null
                                           None None None None None))
                     "2026-12-01" in
  session s (mkJWT None (val "a@x.com") (Some true) (Some true) (Some true)
                   (Some true)) =
    mkSession (Some (mkSessionUser (val "Ada") (val "a@x.com") null None
                                   (Some true) (Some true) (Some true)
                                   (Some true))) "2026-12-01" /\
  exists token' su',
    fst (jwt env (token_for "a@x.com") None w) = Return token' /\
    session s token' = mkSession (Some su') (session_expires s) /\
    su_name su' = val "Ada" /\ su_email su' = val "a@x.com" /\
    su_image su' = null /\ su_id su' = tok_id token' /\
    (su_isAdmin su' = Some true <->
     (exists u, users w !! "a@x.com" = Some u /\ user_role u = ADMIN) /\
     (exists entry, adminWhitelist w !! "a@x.com" = Some entry /\
                    isActive entry = true)) /\
    (su_canManageUsers su' = Some true <->
     su_isAdmin su' = Some true /\
     exists entry, adminWhitelist w !! "a@x.com" = Some entry /\
                   canManageUsers entry = true) /\
    (su_canManageContent su' = Some true <->
     su_isAdmin su' = Some true /\
     exists entry, adminWhitelist w !! "a@x.com" = Some entry /\
                   canManageContent entry = true) /\
    (su_canManageSettings su' = Some true <->
     su_isAdmin su' = Some true /\
     exists entry, adminWhitelist w !! "a@x.com" = Some entry /\
                   canManageSettings entry = true).
Proof.
  split; [reflexivity|].
  apply (session_after_refresh
           (Fixture.healthy (Return Fixture.neon_empty))
           (token_for "a@x.com") None
           (start Fixture.two_users (Fixture.whitelist true) 2) "a@x.com"
           (mkSession (Some (mkSessionUser (val "Ada") (val "a@x.com") null
                                           None None None None None))
                      "2026-12-01")
           (mkSessionUser (val "Ada") (val "a@x.com") null
                          None None None None None));
    reflexivity.
Defined.

(** X2: a token refresh only reads.  Whatever happens -- no email,
    a failing read, a verdict -- [jwt] leaves both tables and the id
    counter as they were, and all it does to the outside is at most
    two lookups in the local store. *)
Theorem jwt_only_reads env token user us wl seed :
  let r := jwt env token user (start us wl seed) in
  users (snd r) = us /\
  adminWhitelist (snd r) = wl /\
  idSeed (snd r) = seed /\
  Forall (fun ev => local_read_event ev = true) (log (snd r)) /\
  length (log (snd r)) <= 2.
Proof.
  cbv zeta.
  destruct (jwt_tables env token user (start us wl seed)) as (Hu & Hw & Hs).
  split_and!; [done..| |].
  - destruct (truthy (tok_email token)) as [email|] eqn:Hemail;
      [|rewrite jwt_no_email by done; constructor].
    unfold jwt.
    replace (truthy (tok_email _)) with (Some email)
      by (destruct user; symmetry; exact Hemail).
    unfold_run.
    destruct (userFindFault env); cbn; [repeat constructor|].
    destruct (whitelistFindFault env); cbn; repeat constructor.
  - destruct (truthy (tok_email token)) as [email|] eqn:Hemail;
      [|rewrite jwt_no_email by done; cbn; lia].
    unfold jwt.
    replace (truthy (tok_email _)) with (Some email)
      by (destruct user; symmetry; exact Hemail).
    unfold_run.
    destruct (userFindFault env); cbn; [lia|].
    destruct (whitelistFindFault env); cbn; lia.
Qed.

(** X3: the verdict is never taken from the token.  For a token that
    carries an email, the verdict fields the token arrives with have
    no influence on what [jwt] does or returns. *)
Theorem jwt_ignores_previous_verdict
    env tid temail a b c d a' b' c' d' user w email :
  truthy temail = Some email ->
  jwt env (mkJWT tid temail a b c d) user w =
  jwt env (mkJWT tid temail a' b' c' d') user w.
Proof.
  intros Hemail. unfold jwt. destruct user; cbn; rewrite Hemail; reflexivity.
Qed.

Lemma jwt_ignores_previous_verdict_witness :
  let env := Fixture.healthy (Return Fixture.neon_empty) in
  let w := start Fixture.two_users (Fixture.whitelist false) 2 in
  truthy (val "a@x.com") = Some "a@x.com" /\
  jwt env (mkJWT None (val "a@x.com") (Some true) (Some true) (Some true)
                 (Some true)) None w =
  jwt env (mkJWT None (val "a@x.com") None None None None) None w.
Proof.
  split; [reflexivity|].
  apply (jwt_ignores_previous_verdict
           (Fixture.healthy (Return Fixture.neon_empty)) None (val "a@x.com")
           (Some true) (Some true) (Some true) (Some true) None None None None
           None (start Fixture.two_users (Fixture.whitelist false) 2)
           "a@x.com").
  reflexivity.
Defined.

(** X4: a token without an email is not resolved at all.  When the
    email of the token is missing, [null] or empty, [jwt] reads
    nothing and hands the token back with the verdict fields it came
    with -- a stale [isAdmin] stays -- and only the id is seeded from
    the user, when there is one. *)
Theorem jwt_without_email_keeps_verdict env token user w :
  truthy (tok_email token) = None ->
  exists token',
    jwt env token user w = (Return token', w) /\
    tok_id token' =
      match user with Some u => Some (au_id u) | None => tok_id token end /\
    tok_email token' = tok_email token /\
    tok_isAdmin token' = tok_isAdmin token /\
    tok_canManageUsers token' = tok_canManageUsers token /\
    tok_canManageContent token' = tok_canManageContent token /\
    tok_canManageSettings token' = tok_canManageSettings token.
Proof.
  intros Hemail. exists (seed_id token user).
  split; [by apply jwt_no_email|]. by destruct user.
Qed.

Lemma jwt_without_email_keeps_verdict_witness :
  let env := Fixture.local_down in
  let w := start Fixture.two_users ∅ 2 in
  let token := mkJWT (Some "u1") (val "") (Some true) (Some true) (Some true)
                     (Some true) in
  truthy (tok_email token) = None /\
  exists token',
    jwt env token None w = (Return token', w) /\
    tok_id token' = Some "u1" /\
    tok_email token' = tok_email token /\
    tok_isAdmin token' = Some true /\
    tok_canManageUsers token' = Some true /\
    tok_canManageContent token' = Some true /\
    tok_canManageSettings token' = Some true.
Proof.
  split; [reflexivity|].
  apply (jwt_without_email_keeps_verdict Fixture.local_down
           (mkJWT (Some "u1") (val "") (Some true) (Some true) (Some true)
                  (Some true))
           None (start Fixture.two_users ∅ 2)).
  reflexivity.
Defined.

(** X5: revoking one administrator.  Once the whitelist entry of an
    email has been deactivated, the next refresh for that email gives
    the negative verdict whatever the token carried, and the refresh
    for any other email gives what it gave before. *)
Theorem jwt_revocation_is_targeted env w email entry :
  userFindFault env = None ->
  whitelistFindFault env = None ->
  adminWhitelist w !! email = Some entry ->
  let w' := with_whitelist w (<[email := deactivate entry]> (adminWhitelist w)) in
  (forall token user,
     truthy (tok_email token) = Some email ->
     exists token',
       fst (jwt env token user w') = Return token' /\ negative_verdict token') /\
  (forall token user other,
     truthy (tok_email token) = Some other -> other <> email ->
     fst (jwt env token user w') = fst (jwt env token user w)).
Proof.
  intros Hu Hw Hentry. cbv zeta. split.
  - intros token user Hemail.
    pose proof (jwt_resolved env token user
                  (with_whitelist w (<[email := deactivate entry]>
                                       (adminWhitelist w)))
                  email Hemail Hu Hw) as Hrun.
    cbv zeta in Hrun. eexists. split; [exact Hrun|].
    unfold negative_verdict, with_whitelist. cbn.
    rewrite lookup_insert_eq. cbn. by rewrite andb_false_r.
  - intros token user other Hemail Hne.
    pose proof (jwt_resolved env token user w other Hemail Hu Hw) as Hrun.
    pose proof (jwt_resolved env token user
                  (with_whitelist w (<[email := deactivate entry]>
                                       (adminWhitelist w)))
                  other Hemail Hu Hw) as Hrun'.
    cbv zeta in Hrun, Hrun'. rewrite Hrun, Hrun'.
    unfold with_whitelist. cbn. by rewrite lookup_insert_ne.
Qed.

(** X6: refreshing again changes nothing.  A token [jwt] has returned
    for an email is returned as it is by the next refresh, as long as
    the store has not changed in between. *)
Theorem jwt_refresh_is_stable env token user w email token' :
  truthy (tok_email token) = Some email ->
  fst (jwt env token user w) = Return token' ->
  fst (jwt env token' None (snd (jwt env token user w))) = Return token'.
Proof.
  intros Hemail Hrun.
  destruct (jwt_return_no_fault env token user w email token' Hemail Hrun)
    as [Hu Hw].
  pose proof (jwt_resolved env token user w email Hemail Hu Hw) as Hres.
  cbv zeta in Hres. rewrite Hres in Hrun. injection Hrun as <-.
  rewrite (jwt_world env token user w email Hemail Hu Hw).
  match goal with
  | |- fst (jwt env ?t None ?w1) = _ =>
      pose proof (jwt_resolved env t None w1 email Hemail Hu Hw) as Hres'
  end.
  cbv zeta in Hres'. rewrite Hres'. cbn. reflexivity.
Qed.

Lemma jwt_revocation_is_targeted_witness :
  let env := Fixture.healthy (Return Fixture.neon_empty) in
  let w := start Fixture.two_users (Fixture.whitelist true) 2 in
  let w' := with_whitelist w (<["a@x.com" := deactivate (Fixture.ada_entry true)]>
                                (adminWhitelist w)) in
  let admin := mkJWT None (val "a@x.com") (Some true) (Some true) (Some true)
                     (Some true) in
  userFindFault env = None /\
  whitelistFindFault env = None /\
  adminWhitelist w !! "a@x.com" = Some (Fixture.ada_entry true) /\
  fst (jwt env (token_for "a@x.com") None w) = Return admin /\
  exists token',
    fst (jwt env admin None w') = Return token' /\ negative_verdict token'.
Proof.
  do 3 (split; [reflexivity|]). split; [vm_compute; reflexivity|].
  destruct (jwt_revocation_is_targeted
              (Fixture.healthy (Return Fixture.neon_empty))
              (start Fixture.two_users (Fixture.whitelist true) 2)
              "a@x.com" (Fixture.ada_entry true)) as [Hrevoked _];
    [reflexivity | reflexivity | reflexivity |].
  apply Hrevoked. reflexivity.
Defined.

Lemma jwt_refresh_is_stable_witness :
  let env := Fixture.healthy (Return Fixture.neon_empty) in
  let w := start Fixture.two_users (Fixture.whitelist true) 2 in
  let admin := mkJWT None (val "a@x.com") (Some true) (Some true) (Some true)
                     (Some true) in
  truthy (tok_email (token_for "a@x.com")) = Some "a@x.com" /\
  fst (jwt env (token_for "a@x.com") None w) = Return admin /\
  fst (jwt env admin None (snd (jwt env (token_for "a@x.com") None w))) =
    Return admin.
Proof.
  split; [reflexivity|]. split; [vm_compute; reflexivity|].
  apply (jwt_refresh_is_stable
           (Fixture.healthy (Return Fixture.neon_empty))
           (token_for "a@x.com") None
           (start Fixture.two_users (Fixture.whitelist true) 2) "a@x.com");
    [reflexivity | vm_compute; reflexivity].
Defined.

(** *** Sign-in *)

(** X7: only Google sign-ins with an email are synchronized.
    [signIn] does something to the outside exactly when the provider
    is Google and the principal has a non-empty email; for any other
    provider, or no account at all, it returns [true] and leaves the
    world as it is. *)
Theorem signIn_syncs_only_google env user account us wl seed :
  let w := start us wl seed in
  (log (snd (signIn env user account w)) = [] <->
   is_google account = false \/ truthy (au_email user) = None) /\
  (is_google account = false -> signIn env user account w = (Return true, w)).
Proof.
  cbv zeta. unfold signIn.
  destruct (is_google account); [|split; [split; auto|done]].
  destruct (truthy (au_email user)) as [email|]; [|split; [split; auto|done]].
  split; [|done]. split; [|intros [?|?]; discriminate].
  unfold_run.
  destruct (whitelistFindFault env); cbn; [discriminate|].
  destruct (userUpsertFault env); cbn; [discriminate|].
  repeat (case_match; cbn in *); simplify_eq/=; discriminate.
Qed.

Lemma signIn_syncs_only_google_witness :
  let env := Fixture.healthy (Return Fixture.neon_empty) in
  let w := start Fixture.two_users (Fixture.whitelist true) 2 in
  let account := Some (mkAccount "credentials") in
  is_google account = false /\
  signIn env (Fixture.principal (val "a@x.com")) account w = (Return true, w).
Proof.
  split; [reflexivity|].
  apply (signIn_syncs_only_google
           (Fixture.healthy (Return Fixture.neon_empty))
           (Fixture.principal (val "a@x.com"))
           (Some (mkAccount "credentials"))
           Fixture.two_users (Fixture.whitelist true) 2).
  reflexivity.
Defined.

(** X8: a failure of the local store is not swallowed.  In a Google
    sign-in, when the whitelist lookup fails [signIn] throws that
    error having done nothing else; when the upsert fails it throws
    that error, no row has changed and the remote service has not
    been called. *)
Theorem signIn_local_failure_propagates env user account us wl seed email :
  is_google account = true ->
  truthy (au_email user) = Some email ->
  let w := start us wl seed in
  let r := signIn env user account w in
  (forall message,
     whitelistFindFault env = Some message ->
     fst r = Throw message /\ users (snd r) = us /\
     log (snd r) = [EvWhitelistFindUnique email]) /\
  (forall message,
     whitelistFindFault env = None -> userUpsertFault env = Some message ->
     fst r = Throw message /\ users (snd r) = us /\
     log (snd r) =
       [EvWhitelistFindUnique email;
        EvUserUpsert email (au_name user) (au_image user)
                     (target_role w email)]).
Proof.
  intros Hg Hemail. cbv zeta. unfold signIn, target_role.
  rewrite Hg, Hemail. unfold_run. split.
  - intros message ->. cbn. done.
  - intros message -> ->. cbn. done.
Qed.

Lemma signIn_local_failure_propagates_witness :
  let env := mkEnv None None (Some "P2002: write conflict") None
                   Fixture.plain_compare Fixture.mk_id
                   (Return Fixture.neon_empty) in
  let user := Fixture.principal (val "new@x.com") in
  let w := start Fixture.two_users (Fixture.whitelist true) 2 in
  let r := signIn env user Fixture.google w in
  is_google Fixture.google = true /\
  truthy (au_email user) = Some "new@x.com" /\
  fst r = Throw "P2002: write conflict" /\
  users (snd r) = Fixture.two_users /\
  log (snd r) =
    [EvWhitelistFindUnique "new@x.com";
     EvUserUpsert "new@x.com" (au_name user) (au_image user)
                  (target_role w "new@x.com")].
Proof.
  split; [reflexivity|]. split; [reflexivity|].
  destruct (signIn_local_failure_propagates
              (mkEnv None None (Some "P2002: write conflict") None
                     Fixture.plain_compare Fixture.mk_id
                     (Return Fixture.neon_empty))
              (Fixture.principal (val "new@x.com")) Fixture.google
              Fixture.two_users (Fixture.whitelist true) 2 "new@x.com")
    as [_ Hupsert]; [reflexivity | reflexivity |].
  apply Hupsert; reflexivity.
Defined.

(** X9: the whitelist decides the role of a federated user.  After a
    Google sign-in the local record of the email has role ADMIN
    exactly when the whitelist has an active entry for it -- an
    existing ADMIN without one is made USER -- while the id, the
    email and the password hash of an existing record are kept; a new
    record has no password hash. *)
Theorem signIn_sets_role_from_whitelist env user account w email :
  is_google account = true ->
  truthy (au_email user) = Some email ->
  whitelistFindFault env = None ->
  userUpsertFault env = None ->
  exists row,
    users (snd (signIn env user account w)) !! email = Some row /\
    (user_role row = ADMIN <->
     exists entry, adminWhitelist w !! email = Some entry /\
                   isActive entry = true) /\
    (forall old,
       users w !! email = Some old ->
       user_id row = user_id old /\ user_email row = user_email old /\
       user_password row = user_password old) /\
    (users w !! email = None ->
     user_email row = email /\ user_password row = None).
Proof.
  intros Hg Hemail Hwl Hup.
  destruct (signIn_local_effect env user account w email Hg Hemail Hwl Hup)
    as (Husers & _ & _).
  rewrite Husers, lookup_insert_eq. eexists. split; [reflexivity|].
  unfold target_role. split_and!.
  - destruct (users w !! email) as [old|]; cbn;
      (destruct (adminWhitelist w !! email) as [[key active cu cc cs]|]; cbn;
       [destruct active|]); settle_iff.
  - intros old ->. done.
  - intros ->. done.
Qed.

Lemma signIn_sets_role_from_whitelist_witness :
  let env := Fixture.healthy (Return Fixture.neon_empty) in
  let user := Fixture.principal (val "a@x.com") in
  let w := start Fixture.two_users (Fixture.whitelist false) 2 in
  is_google Fixture.google = true /\
  truthy (au_email user) = Some "a@x.com" /\
  whitelistFindFault env = None /\
  userUpsertFault env = None /\
  user_role Fixture.ada = ADMIN /\
  users (snd (signIn env user Fixture.google w)) !! "a@x.com" =
    Some (mkUser "u1" "a@x.com" (Some "Ada L.") None USER (Some "hash:secret")) /\
  exists row,
    users (snd (signIn env user Fixture.google w)) !! "a@x.com" = Some row /\
    (user_role row = ADMIN <->
     exists entry, adminWhitelist w !! "a@x.com" = Some entry /\
                   isActive entry = true) /\
    (forall old,
       users w !! "a@x.com" = Some old ->
       user_id row = user_id old /\ user_email row = user_email old /\
       user_password row = user_password old) /\
    (users w !! "a@x.com" = None ->
     user_email row = "a@x.com" /\ user_password row = None).
Proof.
  do 5 (split; [reflexivity|]). split; [vm_compute; reflexivity|].
  apply (signIn_sets_role_from_whitelist
           (Fixture.healthy (Return Fixture.neon_empty))
           (Fixture.principal (val "a@x.com")) Fixture.google
           (start Fixture.two_users (Fixture.whitelist false) 2) "a@x.com");
    reflexivity.
Defined.

(** X10: a sign-in touches one row at most.  Whatever happens,
    [signIn] leaves the local record of every email other than the
    principal's as it was, and never changes the whitelist. *)
Theorem signIn_touches_one_row env user account w key :
  truthy (au_email user) <> Some key ->
  users (snd (signIn env user account w)) !! key = users w !! key /\
  adminWhitelist (snd (signIn env user account w)) = adminWhitelist w.
Proof.
  intros Hkey.
  destruct (is_google account) eqn:Hg;
    [|unfold signIn; by rewrite Hg].
  destruct (truthy (au_email user)) as [email|] eqn:Hemail;
    [|unfold signIn; by rewrite Hg, Hemail].
  destruct (whitelistFindFault env) as [m|] eqn:Hwl.
  { destruct (signIn_local_fault env user account w) as (-> & _ & ->);
      [left; rewrite Hwl; eauto|done]. }
  destruct (userUpsertFault env) as [m|] eqn:Hup.
  { destruct (signIn_local_fault env user account w) as (-> & _ & ->);
      [right; rewrite Hup; eauto|done]. }
  destruct (signIn_local_effect env user account w email Hg Hemail Hwl Hup)
    as (-> & _ & ->).
  split; [|done]. apply lookup_insert_ne. congruence.
Qed.

Lemma signIn_touches_one_row_witness :
  let env := Fixture.healthy (Return Fixture.neon_down) in
  let user := Fixture.principal (val "a@x.com") in
  let w := start Fixture.two_users (Fixture.whitelist false) 2 in
  truthy (au_email user) <> Some "b@x.com" /\
  users (snd (signIn env user Fixture.google w)) !! "b@x.com" =
    Some Fixture.bob /\
  adminWhitelist (snd (signIn env user Fixture.google w)) =
    adminWhitelist w.
Proof.
  split; [discriminate|].
  apply (signIn_touches_one_row
           (Fixture.healthy (Return Fixture.neon_down))
           (Fixture.principal (val "a@x.com")) Fixture.google
           (start Fixture.two_users (Fixture.whitelist false) 2) "b@x.com").
  discriminate.
Defined.

(** X11: sign-in followed by a refresh.  For a Google sign-in that
    went through, the refresh for the same email makes the principal
    an administrator exactly when the whitelist has an active entry
    for the email: the role the local record had before the sign-in
    plays no part. *)
Theorem refresh_after_signIn env env' user account w email token tuser :
  is_google account = true ->
  truthy (au_email user) = Some email ->
  whitelistFindFault env = None ->
  userUpsertFault env = None ->
  userFindFault env' = None ->
  whitelistFindFault env' = None ->
  truthy (tok_email token) = Some email ->
  exists token',
    fst (jwt env' token tuser (snd (signIn env user account w))) =
      Return token' /\
    (tok_isAdmin token' = Some true <->
     exists entry, adminWhitelist w !! email = Some entry /\
                   isActive entry = true).
Proof.
  intros Hg Hemail Hwl Hup Hu' Hwl' Htoken.
  destruct (signIn_local_effect env user account w email Hg Hemail Hwl Hup)
    as (Husers & _ & Hwhite).
  pose proof (jwt_resolved env' token tuser
                (snd (signIn env user account w)) email Htoken Hu' Hwl')
    as Hrun.
  cbv zeta in Hrun. eexists. split; [exact Hrun|]. cbn.
  rewrite Husers, Hwhite, lookup_insert_eq. unfold target_role.
  destruct (users w !! email) as [old|]; cbn;
    (destruct (adminWhitelist w !! email) as [[key active cu cc cs]|]; cbn;
     [destruct active|]); settle_iff.
Qed.

Lemma refresh_after_signIn_witness :
  let env := Fixture.healthy (Return Fixture.neon_down) in
  let user := Fixture.principal (val "b@x.com") in
  let wl := <["b@x.com" := mkAdminWhitelist "b@x.com" true false true false]>
              (Fixture.whitelist true) in
  let w := start Fixture.two_users wl 2 in
  is_google Fixture.google = true /\
  truthy (au_email user) = Some "b@x.com" /\
  whitelistFindFault env = None /\ userUpsertFault env = None /\
  userFindFault env = None /\ whitelistFindFault env = None /\
  truthy (tok_email (token_for "b@x.com")) = Some "b@x.com" /\
  user_role Fixture.bob = USER /\
  fst (jwt env (token_for "b@x.com") None
           (snd (signIn env user Fixture.google w))) =
    Return (mkJWT None (val "b@x.com") (Some true) (Some false) (Some true)
                  (Some false)) /\
  exists token',
    fst (jwt env (token_for "b@x.com") None
             (snd (signIn env user Fixture.google w))) = Return token' /\
    (tok_isAdmin token' = Some true <->
     exists entry, adminWhitelist w !! "b@x.com" = Some entry /\
                   isActive entry = true).
Proof.
  do 8 (split; [reflexivity|]). split; [vm_compute; reflexivity|].
  apply (refresh_after_signIn
           (Fixture.healthy (Return Fixture.neon_down))
           (Fixture.healthy (Return Fixture.neon_down))
           (Fixture.principal (val "b@x.com")) Fixture.google
           (start Fixture.two_users
                  (<["b@x.com" :=
                       mkAdminWhitelist "b@x.com" true false true false]>
                     (Fixture.whitelist true)) 2)
           "b@x.com" (token_for "b@x.com") None);
    reflexivity.
Defined.

(** X12: the sign-in hook never rejects.  Whenever [signIn] returns,
    it returns [true]; a sign-in is refused only by an error of the
    local store. *)
Theorem signIn_never_rejects env user account w answer :
  fst (signIn env user account w) = Return answer ->
  answer = true /\
  (is_google account = true -> is_Some (truthy (au_email user)) ->
   whitelistFindFault env = None /\ userUpsertFault env = None).
Proof.
  unfold signIn.
  destruct (is_google account);
    [destruct (truthy (au_email user)) as [email|]|];
    [|intros [= <-]; split; [done|intros _ [? ?]; discriminate]
     |intros [= <-]; split; [done|discriminate]].
  unfold_run.
  destruct (whitelistFindFault env); cbn; [discriminate|].
  destruct (userUpsertFault env); cbn; [discriminate|].
  repeat (case_match; cbn in *); simplify_eq/=; intros [= <-]; done.
Qed.

Lemma signIn_never_rejects_witness :
  let env := Fixture.healthy (Throw "NEON_URL is not set") in
  let user := Fixture.principal (val "a@x.com") in
  let w := start Fixture.two_users (Fixture.whitelist true) 2 in
  fst (signIn env user Fixture.google w) = Return true /\
  true = true /\
  (is_google Fixture.google = true -> is_Some (truthy (au_email user)) ->
   whitelistFindFault env = None /\ userUpsertFault env = None).
Proof.
  split; [reflexivity|].
  apply (signIn_never_rejects (Fixture.healthy (Throw "NEON_URL is not set"))
           (Fixture.principal (val "a@x.com")) Fixture.google
           (start Fixture.two_users (Fixture.whitelist true) 2) true).
  reflexivity.
Defined.

(** X13: the remote record is created only when it is missing.  In a
    Google sign-in that has the handle: if the remote lookup finds the
    user nothing is created; if it finds nobody, exactly one create
    is issued, for the email, with the name when it is not empty and
    with the role just given to the local record. *)
Theorem signIn_creates_missing_remote_user
    env user account us wl seed email svc :
  is_google account = true ->
  truthy (au_email user) = Some email ->
  whitelistFindFault env = None ->
  userUpsertFault env = None ->
  getNeonAuthService env = Return svc ->
  let w := start us wl seed in
  let r := signIn env user account w in
  (forall found,
     authenticateUser svc email None = Return (Some found) ->
     List.filter is_create_event (log (snd r)) = []) /\
  (authenticateUser svc email None = Return None ->
   List.filter is_create_event (log (snd r)) =
     [EvCreateUser email (or_undefined (au_name user)) (target_role w email)]).
Proof.
  intros Hg Hemail Hwl Hup Hsvc. cbv zeta. unfold signIn, target_role.
  rewrite Hg, Hemail. unfold_run. rewrite Hwl, Hup, Hsvc. cbn. split.
  - intros found ->. cbn. by destruct (disconnect svc).
  - intros ->. cbn.
    destruct (createUser svc email _ _); cbn; [destruct (disconnect svc)|];
      reflexivity.
Qed.

Lemma signIn_creates_missing_remote_user_witness :
  let env := Fixture.healthy (Return Fixture.neon_empty) in
  let user := Fixture.principal (val "a@x.com") in
  let w := start Fixture.two_users (Fixture.whitelist true) 2 in
  is_google Fixture.google = true /\
  truthy (au_email user) = Some "a@x.com" /\
  whitelistFindFault env = None /\
  userUpsertFault env = None /\
  getNeonAuthService env = Return Fixture.neon_empty /\
  authenticateUser Fixture.neon_empty "a@x.com" None = Return None /\
  List.filter is_create_event (log (snd (signIn env user Fixture.google w))) =
    [EvCreateUser "a@x.com" (Some "Ada L.") ADMIN].
Proof.
  do 6 (split; [reflexivity|]).
  destruct (signIn_creates_missing_remote_user
              (Fixture.healthy (Return Fixture.neon_empty))
              (Fixture.principal (val "a@x.com")) Fixture.google
              Fixture.two_users (Fixture.whitelist true) 2 "a@x.com"
              Fixture.neon_empty) as [_ Hcreate]; [reflexivity..|].
  apply Hcreate. reflexivity.
Defined.

(** *** The local-credential provider *)

(** X14: a missing bcrypt module.  When [import('bcryptjs')] fails
    with a message that contains "Cannot resolve module", the
    provider throws its own message about missing dependencies
    instead, and it has not looked at the store. *)
Theorem authorize_credentials_without_bcrypt
    env credentials us wl seed email password message :
  present_credentials credentials = Some (email, password) ->
  bcryptImportFault env = Some message ->
  includes "Cannot resolve module" message = true ->
  let r := authorize_credentials env credentials (start us wl seed) in
  fst r =
    Throw "Password authentication not available. Please install dependencies." /\
  log (snd r) = [EvImportBcrypt].
Proof.
  intros Hcred Himport Hmsg. cbv zeta. unfold authorize_credentials.
  rewrite Hcred. unfold_run. rewrite Himport. cbn. by rewrite Hmsg.
Qed.

Lemma authorize_credentials_without_bcrypt_witness :
  let message := "Error: Cannot resolve module 'bcryptjs'" in
  let env := mkEnv None None None (Some message) Fixture.plain_compare
                   Fixture.mk_id (Return Fixture.neon_empty) in
  let r := authorize_credentials env (Fixture.creds "a@x.com" "secret")
             (start Fixture.two_users (Fixture.whitelist true) 2) in
  present_credentials (Fixture.creds "a@x.com" "secret") =
    Some ("a@x.com", "secret") /\
  bcryptImportFault env = Some message /\
  includes "Cannot resolve module" message = true /\
  fst r =
    Throw "Password authentication not available. Please install dependencies." /\
  log (snd r) = [EvImportBcrypt].
Proof.
  do 3 (split; [reflexivity|]).
  apply (authorize_credentials_without_bcrypt
           (mkEnv None None None
                  (Some "Error: Cannot resolve module 'bcryptjs'")
                  Fixture.plain_compare Fixture.mk_id
                  (Return Fixture.neon_empty))
           (Fixture.creds "a@x.com" "secret") Fixture.two_users
           (Fixture.whitelist true) 2 "a@x.com" "secret"
           "Error: Cannot resolve module 'bcryptjs'"); reflexivity.
Defined.



(** X16: the local-credential provider only reads the local store.
    Whatever the credentials and whatever fails, it changes no table,
    generates no id, writes no row and never calls the remote
    service. *)
Theorem authorize_credentials_only_reads env credentials us wl seed :
  let r := authorize_credentials env credentials (start us wl seed) in
  users (snd r) = us /\
  adminWhitelist (snd r) = wl /\
  idSeed (snd r) = seed /\
  Forall (fun ev => remote_store_event ev = false) (log (snd r)) /\
  Forall (fun ev => local_store_event ev = true -> local_read_event ev = true)
         (log (snd r)).
Proof.
  cbv zeta. unfold authorize_credentials.
  destruct (present_credentials credentials) as [[email password]|];
    [|cbn; split_and!; try done; constructor].
  unfold_run.
  destruct (bcryptImportFault env); cbn; [settle_frame|].
  destruct (userFindFault env); cbn; [settle_frame|].
  destruct (us !! email) as [u|]; cbn; [|settle_frame].
  destruct (user_password u) as [hash|]; cbn; [|settle_frame].
  destruct (truthy_string hash); cbn; [|settle_frame].
  destruct (bcryptCompare env password hash); cbn; [|settle_frame].
  destruct (decide (user_role u = ADMIN)); cbn; [|settle_frame].
  destruct (whitelistFindFault env); cbn; [settle_frame|].
  destruct (flag_or_false (wl !! email) isActive); cbn; settle_frame.
Qed.

(** X17: the whitelist is consulted last.  The local-credential
    provider looks an email up in the whitelist only after it has
    found the local record, matched the password against its hash and
    seen the role ADMIN. *)
Theorem authorize_credentials_whitelist_after_password
    env credentials us wl seed key :
  EvWhitelistFindUnique key ∈
    log (snd (authorize_credentials env credentials (start us wl seed))) ->
  exists password u hash,
    present_credentials credentials = Some (key, password) /\
    us !! key = Some u /\
    user_password u = Some hash /\
    bcryptCompare env password hash = true /\
    user_role u = ADMIN.
Proof.
  unfold authorize_credentials.
  destruct (present_credentials credentials) as [[email password]|];
    [|cbn; by intros ?%elem_of_nil].
  unfold_run.
  destruct (bcryptImportFault env); cbn; [absent_from_log|].
  destruct (userFindFault env); cbn; [absent_from_log|].
  destruct (us !! email) as [u|] eqn:Hu; cbn; [|absent_from_log].
  destruct (user_password u) as [hash|] eqn:Hhash; cbn; [|absent_from_log].
  destruct (truthy_string hash); cbn; [|absent_from_log].
  destruct (bcryptCompare env password hash) eqn:Hcmp; cbn;
    [|absent_from_log].
  destruct (decide (user_role u = ADMIN)) as [Hrole|]; cbn;
    [|absent_from_log].
  assert (Hkey : In (EvWhitelistFindUnique key)
                    [EvImportBcrypt; EvUserFindUnique email; EvBcryptCompare;
                     EvWhitelistFindUnique email] ->
                 key = email).
  { intros [?|[?|[?|[[= ->]|[]]]]]; done. }
  destruct (whitelistFindFault env) as [m|]; cbn;
    [destruct (includes "Cannot resolve module" m)
    |destruct (flag_or_false (wl !! email) isActive)]; cbn;
    rewrite list_elem_of_In; intros ->%Hkey; by exists password, u, hash.
Qed.

Lemma authorize_credentials_whitelist_after_password_witness :
  let env := Fixture.healthy (Return Fixture.neon_empty) in
  let w := start Fixture.two_users (Fixture.whitelist false) 2 in
  EvWhitelistFindUnique "a@x.com" ∈
    log (snd (authorize_credentials env (Fixture.creds "a@x.com" "secret") w)) /\
  log (snd (authorize_credentials env (Fixture.creds "b@x.com" "pw") w)) =
    [EvImportBcrypt; EvUserFindUnique "b@x.com"; EvBcryptCompare] /\
  exists password u hash,
    present_credentials (Fixture.creds "a@x.com" "secret") =
      Some ("a@x.com", password) /\
    Fixture.two_users !! "a@x.com" = Some u /\
    user_password u = Some hash /\
    bcryptCompare env password hash = true /\
    user_role u = ADMIN.
Proof.
  assert (Hin : EvWhitelistFindUnique "a@x.com" ∈
            log (snd (authorize_credentials
                        (Fixture.healthy (Return Fixture.neon_empty))
                        (Fixture.creds "a@x.com" "secret")
                        (start Fixture.two_users (Fixture.whitelist false) 2)))).
  { apply list_elem_of_In. vm_compute. tauto. }
  split; [exact Hin|]. split; [vm_compute; reflexivity|].
  apply (authorize_credentials_whitelist_after_password
           (Fixture.healthy (Return Fixture.neon_empty))
           (Fixture.creds "a@x.com" "secret") Fixture.two_users
           (Fixture.whitelist false) 2 "a@x.com").
  exact Hin.
Defined.

(** *** The remote-credential provider *)

(** X18: the remote-credential provider never looks at the local
    store.  It changes no table, makes no call on the local store,
    and its result is the same whatever the user table and the
    whitelist contain: an ADMIN of the remote store is let in without
    a whitelist entry. *)
Theorem authorize_neon_ignores_local_store env credentials us wl seed us' wl' seed' :
  let r := authorize_neon env credentials (start us wl seed) in
  users (snd r) = us /\
  adminWhitelist (snd r) = wl /\
  idSeed (snd r) = seed /\
  Forall (fun ev => local_store_event ev = false) (log (snd r)) /\
  fst (authorize_neon env credentials (start us' wl' seed')) = fst r.
Proof.
  cbv zeta. unfold authorize_neon.
  destruct (present_credentials credentials) as [[email password]|];
    [|cbn; split_and!; try done; constructor].
  unfold_run.
  destruct (getNeonAuthService env) as [svc|]; cbn;
    [|split_and!; try done; repeat constructor].
  destruct (authenticateUser svc email (Some password)) as [[found|]|]; cbn;
    [destruct (decide (neon_role found = ADMIN)); cbn|..];
    destruct (disconnect svc); cbn;
    split_and!; try done; repeat constructor.
Qed.

(** X19: a failing disconnect wins.  When the provider holds the
    handle and [disconnect] throws in the [finally], that error is
    what the provider throws, even for an ADMIN whose credentials the
    remote store has just accepted. *)
Theorem authorize_neon_disconnect_error_wins
    env credentials w email password svc message :
  present_credentials credentials = Some (email, password) ->
  getNeonAuthService env = Return svc ->
  disconnect svc = Throw message ->
  fst (authorize_neon env credentials w) = Throw message.
Proof.
  intros Hcred Hsvc Hdis. unfold authorize_neon. rewrite Hcred.
  unfold_run. rewrite Hsvc, Hdis. cbn.
  destruct (authenticateUser svc email (Some password)) as [[found|]|]; cbn;
    [destruct (decide (neon_role found = ADMIN)); cbn|..]; reflexivity.
Qed.

Lemma authorize_neon_disconnect_error_wins_witness :
  let svc :=
    mkNeonAuthService (authenticateUser Fixture.neon_admin)
                      (createUser Fixture.neon_admin)
                      (Throw "socket hang up") in
  let env := Fixture.healthy (Return svc) in
  let w := start Fixture.two_users (Fixture.whitelist true) 2 in
  present_credentials (Fixture.creds "a@x.com" "secret") =
    Some ("a@x.com", "secret") /\
  getNeonAuthService env = Return svc /\
  disconnect svc = Throw "socket hang up" /\
  (exists found, authenticateUser svc "a@x.com" (Some "secret") =
                   Return (Some found) /\ neon_role found = ADMIN) /\
  fst (authorize_neon env (Fixture.creds "a@x.com" "secret") w) =
    Throw "socket hang up".
Proof.
  do 3 (split; [reflexivity|]). split; [eexists; split; reflexivity|].
  apply (authorize_neon_disconnect_error_wins
           (Fixture.healthy
              (Return (mkNeonAuthService (authenticateUser Fixture.neon_admin)
                                         (createUser Fixture.neon_admin)
                                         (Throw "socket hang up"))))
           (Fixture.creds "a@x.com" "secret")
           (start Fixture.two_users (Fixture.whitelist true) 2)
           "a@x.com" "secret"
           (mkNeonAuthService (authenticateUser Fixture.neon_admin)
                              (createUser Fixture.neon_admin)
                              (Throw "socket hang up"))
           "socket hang up"); reflexivity.
Defined.

(** X20: every rejection by the remote-credential provider is logged.
    Once the provider holds the handle and [disconnect] answers, an
    error that leaves it -- no match, not an ADMIN, or a failure of
    the remote lookup -- has been written to the console under
    "Neon auth error:" with the same message. *)
Theorem authorize_neon_logs_rejections
    env credentials us wl seed email password svc message :
  present_credentials credentials = Some (email, password) ->
  getNeonAuthService env = Return svc ->
  disconnect svc = Return tt ->
  let r := authorize_neon env credentials (start us wl seed) in
  fst r = Throw message ->
  EvConsoleError "Neon auth error:" message ∈ log (snd r).
Proof.
  intros Hcred Hsvc Hdis. cbv zeta. unfold authorize_neon. rewrite Hcred.
  unfold_run. rewrite Hsvc, Hdis. cbn.
  destruct (authenticateUser svc email (Some password)) as [[found|]|]; cbn;
    [destruct (decide (neon_role found = ADMIN)); cbn|..];
    intros [= <-]; log_membership.
Qed.

Lemma authorize_neon_logs_rejections_witness :
  let env := Fixture.healthy (Return Fixture.neon_empty) in
  let r := authorize_neon env (Fixture.creds "a@x.com" "secret")
             (start Fixture.two_users (Fixture.whitelist true) 2) in
  present_credentials (Fixture.creds "a@x.com" "secret") =
    Some ("a@x.com", "secret") /\
  getNeonAuthService env = Return Fixture.neon_empty /\
  disconnect Fixture.neon_empty = Return tt /\
  fst r = Throw InvalidCredentials /\
  EvConsoleError "Neon auth error:" InvalidCredentials ∈ log (snd r).
Proof.
  do 4 (split; [reflexivity|]).
  apply (authorize_neon_logs_rejections
           (Fixture.healthy (Return Fixture.neon_empty))
           (Fixture.creds "a@x.com" "secret") Fixture.two_users
           (Fixture.whitelist true) 2 "a@x.com" "secret" Fixture.neon_empty
           InvalidCredentials); reflexivity.
Defined.

(** ** Properties of the blob storage helpers *)

(** *** Splitting and joining *)

#[local] Arguments Ascii.eqb : simpl never.

Lemma js_split_cons sep s : exists piece pieces, js_split sep s = piece :: pieces.
Proof.
  destruct s as [|c rest]; cbn; [eauto|].
  destruct (Ascii.eqb c sep); [eauto|].
  destruct (js_split sep rest); eauto.
Qed.

Lemma append_empty s : "" +:+ s = s.
Proof. reflexivity. Qed.

Lemma append_String c a b : String c a +:+ b = String c (a +:+ b).
Proof. reflexivity. Qed.

Lemma js_split_app sep a b :
  js_split sep (a +:+ String sep b) = (js_split sep a ++ js_split sep b)%list.
Proof.
  induction a as [|c a IH]; rewrite ?append_empty, ?append_String; cbn.
  - by rewrite Ascii.eqb_refl.
  - destruct (Ascii.eqb c sep); [by rewrite IH|].
    rewrite IH. by destruct (js_split_cons sep a) as (piece & pieces & ->).
Qed.

Lemma js_split_whole sep s : has_char sep s = false -> js_split sep s = [s].
Proof.
  induction s as [|c s IH]; cbn; [done|].
  intros [Hc Hs]%orb_false_iff. rewrite Hc, IH; done.
Qed.

Lemma concat_cons_cons sep x y l :
  String.concat sep (x :: y :: l) = x +:+ sep +:+ String.concat sep (y :: l).
Proof. reflexivity. Qed.

Lemma js_join_split sep s : js_join (String sep EmptyString) (js_split sep s) = s.
Proof.
  unfold js_join. induction s as [|c s IH]; [done|]. cbn [js_split].
  destruct (js_split_cons sep s) as (piece & pieces & Hs).
  rewrite Hs in IH |- *.
  destruct (Ascii.eqb_spec c sep) as [->|Hne].
  - rewrite concat_cons_cons, IH. reflexivity.
  - destruct pieces as [|p ps].
    + cbn in IH |- *. by rewrite IH.
    + rewrite concat_cons_cons in IH |- *.
      by rewrite append_String, IH.
Qed.

Lemma pop_or_empty_snoc parts piece :
  pop_or_empty (parts ++ [piece])%list = piece.
Proof. unfold pop_or_empty. by rewrite last_snoc. Qed.

Lemma pop_js_split_free sep s :
  has_char sep (pop_or_empty (js_split sep s)) = false.
Proof.
  unfold pop_or_empty. induction s as [|c s IH]; cbn; [done|].
  destruct (js_split_cons sep s) as (piece & pieces & Hs).
  rewrite Hs in IH |- *. destruct (Ascii.eqb c sep) eqn:Hc.
  - by rewrite last_cons_cons.
  - destruct pieces as [|p ps]; cbn in IH |- *; [by rewrite Hc|].
    done.
Qed.

(** *** Lower case *)

Lemma lower_ascii_again c : lower_ascii (lower_ascii c) = lower_ascii c.
Proof. destruct c as [[] [] [] [] [] [] [] []]; reflexivity. Qed.

Lemma lower_ascii_is c d :
  (d = "." \/ d = "/")%char ->
  Ascii.eqb (lower_ascii c) d = Ascii.eqb c d.
Proof.
  intros [-> | ->]; destruct c as [[] [] [] [] [] [] [] []]; reflexivity.
Qed.

Lemma toLowerCase_again s : toLowerCase (toLowerCase s) = toLowerCase s.
Proof. induction s; cbn; [done|]. by rewrite lower_ascii_again, IHs. Qed.

Lemma toLowerCase_app a b :
  toLowerCase (a +:+ b) = toLowerCase a +:+ toLowerCase b.
Proof.
  induction a; rewrite ?append_empty, ?append_String; cbn; [done|].
  by rewrite IHa, append_String.
Qed.

Lemma has_dot_toLowerCase s : has_char "." (toLowerCase s) = has_char "." s.
Proof.
  induction s as [|c s IH]; cbn; [done|].
  rewrite IH, lower_ascii_is; auto.
Qed.

Lemma js_split_toLowerCase s :
  js_split "." (toLowerCase s) = toLowerCase <$> js_split "." s.
Proof.
  induction s as [|c s IH]; cbn; [done|].
  rewrite lower_ascii_is by auto.
  destruct (Ascii.eqb c "."); cbn; [by rewrite IH|].
  rewrite IH. by destruct (js_split "." s).
Qed.

(** The extension [getMimeType] looks up, for a name that ends in a
    dot and a dot-free extension, and for a dot-free name. *)
Lemma extension_of_dotted base ext :
  has_char "." ext = false ->
  pop_or_empty (js_split "." (toLowerCase (base +:+ String "." ext))) =
  toLowerCase ext.
Proof.
  intros Hext. rewrite toLowerCase_app. cbn. change (lower_ascii ".") with "."%char.
  rewrite js_split_app, (js_split_whole "." (toLowerCase ext))
    by (by rewrite has_dot_toLowerCase).
  apply pop_or_empty_snoc.
Qed.

Lemma extension_of_plain ext :
  has_char "." ext = false ->
  pop_or_empty (js_split "." (toLowerCase ext)) = toLowerCase ext.
Proof.
  intros Hext. rewrite js_split_whole by (by rewrite has_dot_toLowerCase).
  reflexivity.
Qed.

(** *** MIME types *)

Lemma mimeTypes_values_truthy key v :
  own_property key mimeTypes = Some v -> truthy_string v = true.
Proof.
  cbn [own_property mimeTypes]. walk_table key; intros [= <-]; reflexivity.
Qed.

(** A lower-cased string is none of the mixed-case names of
    [Object.prototype]. *)
Lemma lower_case_prototype_name s :
  toLowerCase s ∈ object_prototype_names ->
  toLowerCase s = "constructor" \/ toLowerCase s = "__proto__".
Proof.
  intros Hin.
  assert (Hfix : toLowerCase (toLowerCase s) = toLowerCase s)
    by apply toLowerCase_again.
  revert Hin Hfix. generalize (toLowerCase s) as key. intros key Hin Hfix.
  unfold object_prototype_names in Hin.
  repeat (apply elem_of_cons in Hin as [->|Hin]); auto;
    try (vm_compute in Hfix; discriminate).
  by apply elem_of_nil in Hin.
Qed.

(** X21: only the last extension counts, whatever its case.  A file
    name ending in a dot and an extension has the MIME type of the
    bare extension, written in any mix of upper and lower case; so a
    name without any dot is taken as its own extension. *)
Theorem getMimeType_by_last_extension base ext ext' :
  has_char "." ext = false ->
  toLowerCase ext' = toLowerCase ext ->
  getMimeType (base +:+ "." +:+ ext') = getMimeType ext.
Proof.
  intros Hext Hcase.
  assert (Hext' : has_char "." ext' = false)
    by (by rewrite <- has_dot_toLowerCase, Hcase, has_dot_toLowerCase).
  unfold getMimeType.
  change ("." +:+ ext') with (String "." ext').
  by rewrite extension_of_dotted, extension_of_plain, Hcase.
Qed.

Lemma getMimeType_by_last_extension_witness :
  has_char "." "png" = false /\
  toLowerCase "PnG" = toLowerCase "png" /\
  getMimeType ("holiday.2024.final" +:+ "." +:+ "PnG") = getMimeType "png" /\
  getMimeType "png" = OwnString "image/png".
Proof.
  split; [reflexivity|]. split; [reflexivity|].
  split; [|vm_compute; reflexivity].
  apply (getMimeType_by_last_extension "holiday.2024.final" "png" "PnG");
    reflexivity.
Defined.

(** X22: which files are images, which are PDFs.  When [getMimeType]
    gives a string for a name ending in a dot and an extension,
    [isImage] holds of it exactly for the extensions jpg, jpeg, png,
    gif, webp, svg and ico, and [isPdf] exactly for pdf, in any
    case. *)
Theorem getMimeType_classifies base ext mimeType :
  has_char "." ext = false ->
  getMimeType (base +:+ "." +:+ ext) = OwnString mimeType ->
  isImage mimeType =
    bool_decide (toLowerCase ext ∈
                   ["jpg"; "jpeg"; "png"; "gif"; "webp"; "svg"; "ico"]) /\
  isPdf mimeType = bool_decide (toLowerCase ext = "pdf").
Proof.
  intros Hext. unfold getMimeType.
  change ("." +:+ ext) with (String "." ext).
  rewrite extension_of_dotted by done.
  generalize (toLowerCase ext) as key. intros key.
  unfold get_property. cbn [own_property mimeTypes].
  walk_table key; cbn; try (intros [= <-]; split; reflexivity).
  destruct (bool_decide (key ∈ object_prototype_names)); [discriminate|].
  intros [= <-]. split.
  - symmetry. apply bool_decide_eq_false_2.
    rewrite list_elem_of_In. cbn. intuition congruence.
  - symmetry. apply bool_decide_eq_false_2. congruence.
Qed.

Lemma getMimeType_classifies_witness :
  has_char "." "JPEG" = false /\
  getMimeType ("scan.backup" +:+ "." +:+ "JPEG") = OwnString "image/jpeg" /\
  isImage "image/jpeg" =
    bool_decide (toLowerCase "JPEG" ∈
                   ["jpg"; "jpeg"; "png"; "gif"; "webp"; "svg"; "ico"]) /\
  isPdf "image/jpeg" = bool_decide (toLowerCase "JPEG" = "pdf").
Proof.
  split; [reflexivity|]. split; [vm_compute; reflexivity|].
  apply (getMimeType_classifies "scan.backup" "JPEG" "image/jpeg");
    [reflexivity | vm_compute; reflexivity].
Defined.

(** X23: what [getMimeType] returns.  For a name ending in a dot and
    an extension other than constructor and __proto__, the result is a
    non-empty string, and it is application/octet-stream when the
    table has no entry for the lower-cased extension.  For those two
    extensions the lookup finds what every object inherits, and the
    result is no string at all. *)
Theorem getMimeType_result base ext :
  has_char "." ext = false ->
  let key := toLowerCase ext in
  let result := getMimeType (base +:+ "." +:+ ext) in
  (key <> "constructor" -> key <> "__proto__" ->
   exists mimeType,
     result = OwnString mimeType /\ mimeType <> "" /\
     (own_property key mimeTypes = None ->
      mimeType = "application/octet-stream")) /\
  (key = "constructor" \/ key = "__proto__" -> result = Inherited key).
Proof.
  intros Hext. cbv zeta. unfold getMimeType.
  change ("." +:+ ext) with (String "." ext).
  rewrite extension_of_dotted by done. unfold get_property. split.
  - intros Hc Hp.
    destruct (own_property (toLowerCase ext) mimeTypes) as [v|] eqn:Hown.
    + rewrite (mimeTypes_values_truthy _ _ Hown). exists v.
      split_and!; [done| |done].
      pose proof (mimeTypes_values_truthy _ _ Hown). by destruct v.
    + case_bool_decide as Hin.
      * destruct (lower_case_prototype_name ext Hin); done.
      * by exists "application/octet-stream".
  - intros [-> | ->]; reflexivity.
Qed.

Lemma getMimeType_result_witness :
  has_char "." "constructor" = false /\
  has_char "." "xyz" = false /\
  getMimeType ("a" +:+ "." +:+ "constructor") = Inherited "constructor" /\
  exists mimeType,
    getMimeType ("a" +:+ "." +:+ "xyz") = OwnString mimeType /\
    mimeType <> "" /\
    (own_property "xyz" mimeTypes = None ->
     mimeType = "application/octet-stream").
Proof.
  split; [reflexivity|]. split; [reflexivity|]. split.
  - apply (getMimeType_result "a" "constructor"); [reflexivity|].
    left; reflexivity.
  - apply (getMimeType_result "a" "xyz"); [reflexivity | discriminate..].
Defined.

(** *** Blob names *)

Lemma pop_or_empty_fmap (f : string -> string) parts :
  f EmptyString = EmptyString ->
  pop_or_empty (f <$> parts) = f (pop_or_empty parts).
Proof.
  intros Hf. unfold pop_or_empty. rewrite fmap_last.
  by destruct (last parts).
Qed.

Lemma append_assoc (a b c : string) : (a +:+ b) +:+ c = a +:+ (b +:+ c).
Proof.
  induction a; rewrite ?append_empty, ?append_String; [done|].
  by rewrite IHa.
Qed.

(** X24: the blob name is the path without the container.  For a URL
    whose path is a slash, a container name without slash, a slash and
    a blob name, [extractBlobName] returns the blob name unchanged,
    slashes of folders included; for a path that stops at the
    container it returns the empty string and not [null]. *)
Theorem extractBlobName_drops_container pathname_of url container :
  has_char "/" container = false ->
  (forall blobName,
     pathname_of url = Some ("/" +:+ container +:+ "/" +:+ blobName) ->
     extractBlobName pathname_of url = Some blobName) /\
  (pathname_of url = Some ("/" +:+ container) ->
   extractBlobName pathname_of url = Some "").
Proof.
  intros Hcontainer. unfold extractBlobName. split.
  - intros blobName ->.
    change ("/" +:+ container +:+ "/" +:+ blobName)
      with (String "/" (container +:+ String "/" blobName)).
    cbn [js_split]. rewrite Ascii.eqb_refl, js_split_app,
      (js_split_whole "/" container) by done.
    cbn [tail app]. f_equal. apply js_join_split.
  - intros ->. change ("/" +:+ container) with (String "/" container).
    cbn [js_split]. by rewrite Ascii.eqb_refl, js_split_whole.
Qed.

Lemma extractBlobName_drops_container_witness :
  let pathname_of url :=
    if String.eqb url "https://acct.blob.core.windows.net/campuskit-files/uploads/2024/a.png"
    then Some "/campuskit-files/uploads/2024/a.png"
    else if String.eqb url "https://acct.blob.core.windows.net/campuskit-files"
    then Some "/campuskit-files"
    else None in
  has_char "/" "campuskit-files" = false /\
  extractBlobName pathname_of
    "https://acct.blob.core.windows.net/campuskit-files/uploads/2024/a.png" =
    Some "uploads/2024/a.png" /\
  extractBlobName pathname_of
    "https://acct.blob.core.windows.net/campuskit-files" = Some "" /\
  extractBlobName pathname_of "not a url" = None.
Proof.
  cbv zeta. split; [reflexivity|]. split_and!.
  - apply (extractBlobName_drops_container _ _ "campuskit-files");
      reflexivity.
  - apply (extractBlobName_drops_container _ _ "campuskit-files");
      reflexivity.
  - reflexivity.
Defined.

(** X25: the blob keeps the type of the file.  The name [uploadFile]
    gives a blob -- folder, slash, base name, dot, extension of the
    original name -- has the same MIME type as the original name,
    whatever folder and file name the options ask for. *)
Theorem upload_blob_name_keeps_type uuid originalName options :
  getMimeType (upload_blob_name uuid originalName options) =
  getMimeType originalName.
Proof.
  unfold upload_blob_name, getMimeType.
  set (ext := pop_or_empty (js_split "." originalName)).
  assert (Hext : has_char "." ext = false) by apply pop_js_split_free.
  set (folder := or_else (opt_folder options) "uploads").
  set (baseName := or_else (opt_fileName options) uuid).
  replace (folder +:+ "/" +:+ baseName +:+ "." +:+ ext)
    with ((folder +:+ "/" +:+ baseName) +:+ String "." ext)
    by (by rewrite !append_assoc).
  rewrite extension_of_dotted by done.
  by rewrite js_split_toLowerCase, pop_or_empty_fmap.
Qed.

(** *** The storage client *)

(** X26: without a connection string nothing is sent.  While no
    client has been built and the connection string is missing or
    empty, [ensureContainer], [uploadFile], [uploadBase64] and
    [deleteBlob] all throw the configuration error and leave the
    module state and the log as they were: the SDK is never called. *)
Theorem storage_not_configured env st buffer base64Data name options blobName :
  connectionStringVar env = None \/ connectionStringVar env = Some "" ->
  containerClient st = false ->
  let message := "AZURE_STORAGE_CONNECTION_STRING is not configured" in
  ensureContainer env st = (Throw message, st) /\
  uploadFile env buffer name options st = (Throw message, st) /\
  uploadBase64 env base64Data name options st = (Throw message, st) /\
  deleteBlob env blobName st = (Throw message, st).
Proof.
  intros Hcs Hclient. cbv zeta. unfold_storage. rewrite Hclient.
  destruct Hcs as [-> | ->]; done.
Qed.

Lemma storage_not_configured_witness :
  let env := mkAzureEnv (Some "") None None None None None
                        (fun name => "https://acct/" +:+ name) "uuid-1"
                        (fun _ => None) (fun _ => []) in
  let st := mkAzureState false false [] in
  let message := "AZURE_STORAGE_CONNECTION_STRING is not configured" in
  (connectionStringVar env = None \/ connectionStringVar env = Some "") /\
  containerClient st = false /\
  ensureContainer env st = (Throw message, st) /\
  uploadFile env [] "a.png" (mkUploadOptions None None None) st =
    (Throw message, st) /\
  uploadBase64 env "aGk=" "a.png" (mkUploadOptions None None None) st =
    (Throw message, st) /\
  deleteBlob env "uploads/a.png" st = (Throw message, st).
Proof.
  split; [right; reflexivity|]. split; [reflexivity|].
  apply (storage_not_configured
           (mkAzureEnv (Some "") None None None None None
                       (fun name => "https://acct/" +:+ name) "uuid-1"
                       (fun _ => None) (fun _ => []))
           (mkAzureState false false []) [] "aGk=" "a.png"
           (mkUploadOptions None None None) "uploads/a.png");
    [right; reflexivity | reflexivity].
Defined.

(** X27: an upload with a client at hand.  With the container client
    already built, [uploadFile] builds no client again; it first
    ensures the container and, if that fails, throws that error
    without uploading; otherwise it uploads under the blob name with
    the content type of the options or, failing that, of the file
    name, and when the upload succeeds it returns the URL of that
    blob and its name. *)
Theorem uploadFile_with_client env buffer name options st :
  containerClient st = true ->
  let blobName := upload_blob_name (uuidv4 env) name options in
  let upload :=
    AzUploadData blobName buffer
      (content_type_or (opt_contentType options) (getMimeType name)) in
  let r := uploadFile env buffer name options st in
  containerClient (snd r) = true /\
  (forall message,
     createIfNotExistsFault env = Some message ->
     fst r = Throw message /\
     azure_log (snd r) = (azure_log st ++ [AzCreateIfNotExists])%list) /\
  (createIfNotExistsFault env = None ->
   azure_log (snd r) = (azure_log st ++ [AzCreateIfNotExists; upload])%list /\
   fst r =
     match uploadDataFault env with
     | Some message => Throw message
     | None => Return (mkUploadResult (blobUrl env blobName) blobName)
     end).
Proof.
  intros Hclient. cbv zeta. unfold_storage. rewrite Hclient. cbn.
  destruct (createIfNotExistsFault env) as [m|]; cbn.
  - split_and!; [done| |done]. intros message [= <-]. done.
  - rewrite Hclient.
    destruct (uploadDataFault env); cbn; rewrite <- app_assoc;
      split_and!; done.
Qed.

Lemma uploadFile_with_client_witness :
  let env := mkAzureEnv (Some "UseDevelopmentStorage=true") None None None
                        None None (fun name => "https://acct/c/" +:+ name)
                        "uuid-1" (fun _ => None) (fun _ => []) in
  let st := mkAzureState true true [] in
  let r := uploadFile env [] "Report.PDF" (mkUploadOptions None None None) st in
  containerClient st = true /\
  fst r = Return (mkUploadResult "https://acct/c/uploads/uuid-1.PDF"
                                 "uploads/uuid-1.PDF") /\
  azure_log (snd r) =
    [AzCreateIfNotExists;
     AzUploadData "uploads/uuid-1.PDF" [] (OwnString "application/pdf")].
Proof.
  cbv zeta. split; [reflexivity|].
  destruct (uploadFile_with_client
              (mkAzureEnv (Some "UseDevelopmentStorage=true") None None None
                          None None (fun name => "https://acct/c/" +:+ name)
                          "uuid-1" (fun _ => None) (fun _ => []))
              [] "Report.PDF" (mkUploadOptions None None None)
              (mkAzureState true true [])) as (_ & _ & Hok); [reflexivity|].
  destruct Hok as [Hlog Hres]; [reflexivity|].
  split; [exact Hres | exact Hlog].
Defined.

(** X28: the clients are built once.  Starting with no client and a
    connection string, the first [uploadFile] that gets as far as its
    upload has built the clients, exactly once and before anything
    else, and left them in the module state. *)
Theorem uploadFile_builds_client_once env buffer name options c cs :
  connectionStringVar env = Some (String c cs) ->
  fromConnectionStringFault env = None ->
  createIfNotExistsFault env = None ->
  let r := uploadFile env buffer name options (mkAzureState false false []) in
  blobServiceClient (snd r) = true /\
  containerClient (snd r) = true /\
  azure_log (snd r) =
    [AzFromConnectionString (String c cs);
     AzGetContainerClient (containerName env);
     AzCreateIfNotExists;
     AzUploadData (upload_blob_name (uuidv4 env) name options) buffer
       (content_type_or (opt_contentType options) (getMimeType name))].
Proof.
  intros Hcs Hfrom Hcreate. cbv zeta. unfold_storage. cbn.
  rewrite Hcs, Hfrom. cbn. rewrite Hcreate. cbn.
  destruct (uploadDataFault env); cbn; done.
Qed.

Lemma uploadFile_builds_client_once_witness :
  let env := mkAzureEnv (Some "UseDevelopmentStorage=true") (Some "") None
                        None None None (fun name => "https://acct/c/" +:+ name)
                        "uuid-1" (fun _ => None) (fun _ => []) in
  let options := mkUploadOptions (Some "avatars") (Some "ada") (Some "") in
  let r := uploadFile env [] "me.tar.GZ" options (mkAzureState false false []) in
  connectionStringVar env = Some "UseDevelopmentStorage=true" /\
  fromConnectionStringFault env = None /\
  createIfNotExistsFault env = None /\
  azure_log (snd r) =
    [AzFromConnectionString "UseDevelopmentStorage=true";
     AzGetContainerClient "campuskit-files";
     AzCreateIfNotExists;
     AzUploadData "avatars/ada.GZ" [] (OwnString "application/octet-stream")].
Proof.
  do 3 (split; [reflexivity|]).
  apply (uploadFile_builds_client_once
           (mkAzureEnv (Some "UseDevelopmentStorage=true") (Some "") None
                       None None None
                       (fun name => "https://acct/c/" +:+ name)
                       "uuid-1" (fun _ => None) (fun _ => []))
           [] "me.tar.GZ"
           (mkUploadOptions (Some "avatars") (Some "ada") (Some ""))
           "U" "seDevelopmentStorage=true"); reflexivity.
Defined.

Lemma upload_blob_name_not_empty uuid name options :
  exists c rest, upload_blob_name uuid name options = String c rest.
Proof.
  unfold upload_blob_name.
  destruct (or_else (opt_folder options) "uploads") as [|c folder];
    rewrite ?append_empty, ?append_String; eauto.
Qed.

(** X29: what [deleteByUrl] deletes.  A URL that cannot be parsed, or
    whose path stops at the container, deletes nothing and raises
    nothing, configured or not.  A URL whose path is the container
    followed by a blob name is handled exactly as [deleteBlob] of that
    name; in particular the URL [uploadFile] returned, when its path
    is the container and the blob name, deletes the uploaded blob. *)
Theorem deleteByUrl_targets_blob env url st container :
  has_char "/" container = false ->
  (pathnameOf env url = None -> deleteByUrl env url st = (Return tt, st)) /\
  (pathnameOf env url = Some ("/" +:+ container) ->
   deleteByUrl env url st = (Return tt, st)) /\
  (forall blobName,
     blobName <> "" ->
     pathnameOf env url = Some ("/" +:+ container +:+ "/" +:+ blobName) ->
     deleteByUrl env url st = deleteBlob env blobName st) /\
  (forall name options,
     let blobName := upload_blob_name (uuidv4 env) name options in
     url = blobUrl env blobName ->
     pathnameOf env url = Some ("/" +:+ container +:+ "/" +:+ blobName) ->
     deleteByUrl env url st = deleteBlob env blobName st).
Proof.
  intros Hcontainer.
  assert (Hblob : forall blobName,
            blobName <> "" ->
            pathnameOf env url = Some ("/" +:+ container +:+ "/" +:+ blobName) ->
            deleteByUrl env url st = deleteBlob env blobName st).
  { intros blobName Hne Hpath. unfold deleteByUrl, extractBlobName.
    rewrite Hpath.
    change ("/" +:+ container +:+ "/" +:+ blobName)
      with (String "/" (container +:+ String "/" blobName)).
    cbn [js_split]. rewrite Ascii.eqb_refl, js_split_app,
      (js_split_whole "/" container) by done.
    cbn [tail app]. rewrite js_join_split. by destruct blobName. }
  split_and!.
  - intros Hpath. unfold deleteByUrl, extractBlobName. by rewrite Hpath.
  - intros Hpath. unfold deleteByUrl, extractBlobName. rewrite Hpath.
    change ("/" +:+ container) with (String "/" container).
    cbn [js_split]. by rewrite Ascii.eqb_refl, js_split_whole.
  - exact Hblob.
  - intros name options blobName _ Hpath. apply Hblob; [|done].
    destruct (upload_blob_name_not_empty (uuidv4 env) name options)
      as (c & rest & Hname).
    subst blobName. by rewrite Hname.
Qed.

Lemma deleteByUrl_targets_blob_witness :
  let env :=
    mkAzureEnv (Some "UseDevelopmentStorage=true") None None None None None
               (fun name => "https://acct/campuskit-files/" +:+ name) "uuid-1"
               (fun url =>
                  if String.eqb url "https://acct/campuskit-files/uploads/uuid-1.png"
                  then Some "/campuskit-files/uploads/uuid-1.png"
                  else None)
               (fun _ => []) in
  let st := mkAzureState true true [] in
  let options := mkUploadOptions None None None in
  let uploaded := uploadFile env [] "a.png" options st in
  has_char "/" "campuskit-files" = false /\
  fst uploaded = Return (mkUploadResult
                           "https://acct/campuskit-files/uploads/uuid-1.png"
                           "uploads/uuid-1.png") /\
  deleteByUrl env "https://acct/campuskit-files/uploads/uuid-1.png" st =
    deleteBlob env "uploads/uuid-1.png" st /\
  deleteByUrl env "nonsense" st = (Return tt, st).
Proof.
  cbv zeta. split; [reflexivity|]. split; [reflexivity|].
  pose proof (deleteByUrl_targets_blob
    (mkAzureEnv (Some "UseDevelopmentStorage=true") None None None None None
                (fun name => "https://acct/campuskit-files/" +:+ name) "uuid-1"
                (fun url =>
                   if String.eqb url "https://acct/campuskit-files/uploads/uuid-1.png"
                   then Some "/campuskit-files/uploads/uuid-1.png"
                   else None)
                (fun _ => []))) as Hdelete.
  split.
  - destruct (Hdelete "https://acct/campuskit-files/uploads/uuid-1.png"
                (mkAzureState true true []) "campuskit-files")
      as (_ & _ & _ & Hround); [reflexivity|].
    apply (Hround "a.png" (mkUploadOptions None None None)); reflexivity.
  - destruct (Hdelete "nonsense" (mkAzureState true true [])
                "campuskit-files") as (Hnone & _); [reflexivity|].
    apply Hnone. reflexivity.
Defined.

(** *** Data URLs *)

Lemma strip_prefix_app p s : strip_prefix p (p +:+ s) = Some s.
Proof.
  induction p as [|a p IH]; rewrite ?append_empty, ?append_String; cbn;
    [by destruct s|].
  by rewrite Ascii.eqb_refl.
Qed.

Lemma until_semicolon_app run rest :
  has_char ";" run = false ->
  until_semicolon (run +:+ String ";" rest) = (run, String ";" rest).
Proof.
  induction run as [|c run IH]; rewrite ?append_empty, ?append_String; cbn.
  - intros _. by rewrite Ascii.eqb_refl.
  - intros [Hc Hrun]%orb_false_iff. by rewrite Hc, IH.
Qed.

(** X30: a data URL and its payload upload alike.  [uploadBase64]
    given a data URL -- [data:], a media type without semicolon,
    [;base64,] and the payload -- does exactly what it does given the
    bare payload, provided the payload does not itself start with
    [data:]: the prefix is cut off before decoding. *)
Theorem uploadBase64_strips_data_url env mediaType payload name options :
  mediaType <> "" ->
  has_char ";" mediaType = false ->
  strip_prefix "data:" payload = None ->
  uploadBase64 env ("data:" +:+ mediaType +:+ ";base64," +:+ payload)
               name options =
  uploadBase64 env payload name options /\
  uploadBase64 env payload name options =
  uploadFile env (bufferFromBase64 env payload) name options.
Proof.
  intros Hne Hsemi Hpayload. unfold uploadBase64.
  assert (Hbare : strip_data_url payload = payload)
    by (unfold strip_data_url; by rewrite Hpayload).
  assert (Hurl : strip_data_url
                   ("data:" +:+ mediaType +:+ ";base64," +:+ payload) = payload).
  { unfold strip_data_url. rewrite strip_prefix_app.
    change (";base64," +:+ payload) with (String ";" ("base64," +:+ payload)).
    rewrite until_semicolon_app by done.
    change (String ";" ("base64," +:+ payload)) with (";base64," +:+ payload).
    rewrite strip_prefix_app. by destruct mediaType. }
  by rewrite Hurl, Hbare.
Qed.

Lemma uploadBase64_strips_data_url_witness :
  let env :=
    mkAzureEnv (Some "UseDevelopmentStorage=true") None None None None None
               (fun name => "https://acct/c/" +:+ name) "uuid-1"
               (fun _ => None)
               (fun s => if String.eqb s "aGk=" then [Byte.x68; Byte.x69] else []) in
  let st := mkAzureState true true [] in
  let options := mkUploadOptions None None None in
  "image/png" <> "" /\
  has_char ";" "image/png" = false /\
  strip_prefix "data:" "aGk=" = None /\
  azure_log (snd (uploadBase64 env "data:image/png;base64,aGk=" "a.png"
                               options st)) =
    [AzCreateIfNotExists;
     AzUploadData "uploads/uuid-1.png" [Byte.x68; Byte.x69] (OwnString "image/png")] /\
  uploadBase64 env ("data:" +:+ "image/png" +:+ ";base64," +:+ "aGk=")
               "a.png" options st =
  uploadBase64 env "aGk=" "a.png" options st.
Proof.
  cbv zeta. split; [discriminate|]. do 3 (split; [reflexivity|]).
  destruct (uploadBase64_strips_data_url
    (mkAzureEnv (Some "UseDevelopmentStorage=true") None None None None None
                (fun name => "https://acct/c/" +:+ name) "uuid-1"
                (fun _ => None)
                (fun s => if String.eqb s "aGk=" then [Byte.x68; Byte.x69] else []))
    "image/png" "aGk=" "a.png" (mkUploadOptions None None None))
    as [Hsame _]; [discriminate | reflexivity | reflexivity |].
  by rewrite Hsame.
Defined.
